(** * Convert_multiple_json_files.py: the conversion layer

    A shallow embedding of the JSON -> CSV / spreadsheet / JSON converter of
    [Convert_multiple_json_files.py] and the properties of its conversion
    contract.

    Python values are the values [json.load] produces.  A Python [str] is a
    list of Unicode code points, a [bytes] object a list of octets.  An
    exception is an explicit [Raise] result; the messages shown with
    [st.error] and the [io.StringIO] buffer of the CSV writer are the state
    threaded through the encoders. *)

From Stdlib Require Import String Ascii.
From Stdlib Require Import List NArith ZArith Bool Lia.
From Stdlib Require Import SpecFloat.
Import ListNotations.

(** ** Strings and bytes *)

(** A Python [str]: its code points, in order. *)
Definition pystr := list N.

(** A Python [bytes]: its octets, in order. *)
Definition bytes := list N.

(** An ASCII literal of the source as a Python [str]. *)
Definition py (s : string) : pystr := map N_of_ascii (list_ascii_of_string s).
Arguments py s%_string.

(** The same, an apostrophe of the literal standing for a double quote. *)
Definition pyq (s : string) : pystr :=
  map (fun c => if N.eqb c 39%N then 34%N else c) (py s).
Arguments pyq s%_string.

Definition LF : N := 10.
Definition CR : N := 13.
Definition COMMA : N := 44.
Definition DQUOTE : N := 34.
Definition BACKSLASH : N := 92.

Definition chr (a : ascii) : N := N_of_ascii a.
Arguments chr a%_char : simpl never.

Fixpoint pystr_eqb (s t : pystr) : bool :=
  match s, t with
  | [], [] => true
  | c :: s', d :: t' => N.eqb c d && pystr_eqb s' t'
  | _, _ => false
  end.

(** [sep.join(parts)] on strings. *)
Definition str_join (sep : pystr) (parts : list pystr) : pystr :=
  match parts with
  | [] => []
  | p :: ps => p ++ flat_map (fun q => sep ++ q) ps
  end.

(** [text.replace(old, new)] where [old] is a one-character string. *)
Definition str_replace (old : N) (new : pystr) (text : pystr) : pystr :=
  flat_map (fun c => if N.eqb c old then new else [c]) text.

(** ** Exceptions and results *)

(** The exceptions of the program.  [NotModelled] is not one of Python: it
    marks a library behaviour this development leaves out. *)
Inductive exn : Type :=
| TypeError
| AttributeError
| JSONDecodeError
| UnicodeDecodeError
| UnicodeEncodeError
| RecursionError
| NotModelled.

Inductive result (A : Type) : Type :=
| Ok (a : A)
| Raise (e : exn).

Arguments Ok {A} a.
Arguments Raise {A} e.

Definition bind {A B} (r : result A) (k : A -> result B) : result B :=
  match r with
  | Ok a => k a
  | Raise e => Raise e
  end.

Declare Scope result_scope.
Delimit Scope result_scope with result.
Notation "x <- e ;; k" := (bind e (fun x => k))
  (at level 61, e at next level, right associativity) : result_scope.
Local Open Scope N_scope.
Local Open Scope result_scope.

(** ** Values produced by [json.load] *)

#[local] Unset Elimination Schemes.

Inductive json : Type :=
| JNull
| JBool (b : bool)
| JInt (n : Z)
| JFloat (f : spec_float)
| JStr (s : pystr)
| JArr (items : list json)
| JObj (members : list (pystr * json)).

#[local] Set Elimination Schemes.

(** A [dict] keeps its keys in insertion order. *)
Definition dict := list (pystr * json).

(** [d.get(key, default)]. *)
Fixpoint dict_get (d : dict) (key : pystr) (default : json) : json :=
  match d with
  | [] => default
  | (k, v) :: d' => if pystr_eqb k key then v else dict_get d' key default
  end.

(** [key in d]. *)
Definition dict_mem (d : dict) (key : pystr) : bool :=
  existsb (fun kv => pystr_eqb (fst kv) key) d.

(** [d[key] = v]: an existing key keeps its position, a new one goes last. *)
Fixpoint dict_set (d : dict) (key : pystr) (v : json) : dict :=
  match d with
  | [] => [(key, v)]
  | (k, w) :: d' =>
      if pystr_eqb k key then (k, v) :: d' else (k, w) :: dict_set d' key v
  end.

(** Truth value of an object, as [if text] tests it. *)
Definition truthy (v : json) : bool :=
  match v with
  | JNull => false
  | JBool b => b
  | JInt n => negb (Z.eqb n 0)
  | JFloat (S754_zero _) => false
  | JFloat _ => true
  | JStr s => negb (pystr_eqb s [])
  | JArr items => match items with [] => false | _ => true end
  | JObj members => match members with [] => false | _ => true end
  end.

(** ** Field normalizer *)

(** The items of a list handed to [str.join]: every item must be a [str]. *)
Fixpoint join_items (items : list json) : result (list pystr) :=
  match items with
  | [] => Ok []
  | JStr s :: rest => ss <- join_items rest ;; Ok (s :: ss)
  | _ :: _ => Raise TypeError
  end.

(** [', '.join(text)] for a list [text]. *)
Definition join_method (sep : pystr) (items : list json) : result pystr :=
  ss <- join_items items ;; Ok (str_join sep ss).

(** [text.replace(old, new)]: only a [str] has the method. *)
Definition replace_method (text : json) (old : N) (new : pystr) : result pystr :=
  match text with
  | JStr s => Ok (str_replace old new s)
  | _ => Raise AttributeError
  end.

Definition clean_multiline_field (text : json) : result pystr :=
  text <- match text with
          | JArr items => s <- join_method (py ", ") items ;; Ok (JStr s)
          | _ => Ok text
          end ;;
  if truthy text then replace_method text LF (py " | ") else Ok [].

(** ** Row mapper *)

(** [json_data.get(column, "")]: only a [dict] has the method. *)
Definition get_method (json_data : json) (column : pystr) (default : json)
  : result json :=
  match json_data with
  | JObj d => Ok (dict_get d column default)
  | _ => Raise AttributeError
  end.

(** The [for column in columns] loop, [csv_row] being the list built so far. *)
Fixpoint json_to_csv_rows_loop (json_data : json) (columns : list pystr)
    (csv_row : list pystr) : result (list pystr) :=
  match columns with
  | [] => Ok csv_row
  | column :: rest =>
      value <- get_method json_data column (JStr []) ;;
      value <- clean_multiline_field value ;;
      json_to_csv_rows_loop json_data rest (csv_row ++ [value])
  end.

Definition json_to_csv_rows (json_data : json) (columns : list pystr)
  : result (list pystr) :=
  json_to_csv_rows_loop json_data columns [].

(** ** The csv writer

    [csv.writer(csv_output)] with the default dialect: delimiter comma, quote
    character double quote, minimal quoting, doubled quotes, line terminator
    CR LF.  CPython 3.11 and later, where an unset escape character matches
    no character of a field. *)

(** A character that makes the writer quote the field: the delimiter, the
    quote character, or a character of the line terminator. *)
Definition csv_special (c : N) : bool :=
  N.eqb c COMMA || N.eqb c DQUOTE || N.eqb c CR || N.eqb c LF.

(** The characters of a field as written: a quote character is doubled. *)
Definition csv_field_data (field : pystr) : pystr :=
  flat_map (fun c => if N.eqb c DQUOTE then [DQUOTE; DQUOTE] else [c]) field.

Definition csv_field (field : pystr) : pystr :=
  if existsb csv_special field
  then DQUOTE :: csv_field_data field ++ [DQUOTE]
  else field.

(** The record of a row, without its terminator.  A row of one empty field
    is written as a pair of quotes. *)
Definition csv_record (row : list pystr) : pystr :=
  match row with
  | [[]] => [DQUOTE; DQUOTE]
  | _ => str_join [COMMA] (map csv_field row)
  end.

Definition lineterminator : pystr := [CR; LF].

(** ** UTF-8 *)

(** [text.encode('utf-8')]: a surrogate code point cannot be encoded. *)
Definition utf8_encode_char (c : N) : result bytes :=
  if c <? 128 then Ok [c]
  else if c <? 2048 then Ok [192 + c / 64; 128 + c mod 64]
  else if c <? 65536 then
    if (55296 <=? c) && (c <=? 57343) then Raise UnicodeEncodeError
    else Ok [224 + c / 4096; 128 + (c / 64) mod 64; 128 + c mod 64]
  else if c <? 1114112 then
    Ok [240 + c / 262144; 128 + (c / 4096) mod 64;
        128 + (c / 64) mod 64; 128 + c mod 64]
  else Raise UnicodeEncodeError.

Fixpoint utf8_encode (text : pystr) : result bytes :=
  match text with
  | [] => Ok []
  | c :: rest =>
      b <- utf8_encode_char c ;;
      bs <- utf8_encode rest ;;
      Ok (b ++ bs)
  end.

Definition is_continuation (b : N) : bool := (128 <=? b) && (b <? 192).

(** Strict decoding, as [io.TextIOWrapper(..., encoding='utf-8')] reads: an
    overlong form, a surrogate, a value above U+10FFFF, a stray or missing
    continuation byte are all rejected. *)
Fixpoint utf8_decode (data : bytes) : result pystr :=
  match data with
  | [] => Ok []
  | b0 :: r0 =>
      if b0 <? 128 then s <- utf8_decode r0 ;; Ok (b0 :: s)
      else if b0 <? 192 then Raise UnicodeDecodeError
      else if b0 <? 224 then
        match r0 with
        | b1 :: r1 =>
            let c := (b0 - 192) * 64 + (b1 - 128) in
            if is_continuation b1 && (128 <=? c)
            then s <- utf8_decode r1 ;; Ok (c :: s)
            else Raise UnicodeDecodeError
        | _ => Raise UnicodeDecodeError
        end
      else if b0 <? 240 then
        match r0 with
        | b1 :: b2 :: r2 =>
            let c := (b0 - 224) * 4096 + (b1 - 128) * 64 + (b2 - 128) in
            if is_continuation b1 && is_continuation b2 && (2048 <=? c)
               && negb ((55296 <=? c) && (c <=? 57343))
            then s <- utf8_decode r2 ;; Ok (c :: s)
            else Raise UnicodeDecodeError
        | _ => Raise UnicodeDecodeError
        end
      else if b0 <? 248 then
        match r0 with
        | b1 :: b2 :: b3 :: r3 =>
            let c := (b0 - 240) * 262144 + (b1 - 128) * 4096
                     + (b2 - 128) * 64 + (b3 - 128) in
            if is_continuation b1 && is_continuation b2 && is_continuation b3
               && (65536 <=? c) && (c <? 1114112)
            then s <- utf8_decode r3 ;; Ok (c :: s)
            else Raise UnicodeDecodeError
        | _ => Raise UnicodeDecodeError
        end
      else Raise UnicodeDecodeError
  end.

(** ** The JSON decoder

    [json.loads] on a [str], as CPython's scanner reads a document. *)

Definition is_ws (c : N) : bool :=
  N.eqb c 32 || N.eqb c 9 || N.eqb c LF || N.eqb c CR.

(** [WHITESPACE.match(s, end).end()]. *)
Fixpoint skip_ws (s : pystr) : pystr :=
  match s with
  | c :: s' => if is_ws c then skip_ws s' else s
  | [] => []
  end.

(** [s[end:].startswith(p)], giving what follows [p]. *)
Fixpoint strip_prefix (p s : pystr) : option pystr :=
  match p, s with
  | [], _ => Some s
  | a :: p', c :: s' => if N.eqb a c then strip_prefix p' s' else None
  | _ :: _, [] => None
  end.

Definition is_digit (c : N) : bool := (48 <=? c) && (c <=? 57).

(** The longest prefix of digits, and what follows it. *)
Fixpoint span_digits (s : pystr) : pystr * pystr :=
  match s with
  | c :: s' =>
      if is_digit c then let (ds, r) := span_digits s' in (c :: ds, r)
      else ([], s)
  | [] => ([], [])
  end.

(** The groups of [NUMBER_RE]. *)
Record number_match : Type := {
  nm_negative : bool;            (* a leading minus sign *)
  nm_integer : pystr;            (* the digits of the integer part *)
  nm_frac : option pystr;        (* the digits after the point *)
  nm_exp : option (bool * pystr) (* the exponent: negative?, digits *)
}.

(** The integer part: a single zero, or a nonzero digit and more digits. *)
Definition match_integer (s : pystr) : option (pystr * pystr) :=
  match s with
  | c :: s' =>
      if N.eqb c (chr "0") then Some ([c], s')
      else if is_digit c then let (ds, r) := span_digits s' in Some (c :: ds, r)
      else None
  | [] => None
  end.

(** The optional fraction: a point and at least one digit. *)
Definition match_frac (s : pystr) : option pystr * pystr :=
  match s with
  | c :: s' =>
      if N.eqb c (chr ".") then
        match span_digits s' with
        | ([], _) => (None, s)
        | (ds, r) => (Some ds, r)
        end
      else (None, s)
  | [] => (None, s)
  end.

(** The optional exponent: [e] or [E], an optional sign, at least one digit. *)
Definition match_exp (s : pystr) : option (bool * pystr) * pystr :=
  match s with
  | c :: s' =>
      if N.eqb c (chr "e") || N.eqb c (chr "E") then
        let (neg, s'') :=
          match s' with
          | d :: t =>
              if N.eqb d (chr "-") then (true, t)
              else if N.eqb d (chr "+") then (false, t)
              else (false, s')
          | [] => (false, s')
          end in
        match span_digits s'' with
        | ([], _) => (None, s)
        | (ds, r) => (Some (neg, ds), r)
        end
      else (None, s)
  | [] => (None, s)
  end.

(** [NUMBER_RE.match(s, end)]: an optional minus sign and the integer part,
    then the optional fraction, then the optional exponent. *)
Definition match_number (s : pystr) : option (number_match * pystr) :=
  let (neg, s1) :=
    match s with
    | c :: s' => if N.eqb c (chr "-") then (true, s') else (false, s)
    | [] => (false, s)
    end in
  match match_integer s1 with
  | None => None
  | Some (int, s2) =>
      let (frac, s3) := match_frac s2 in
      let (exp, s4) := match_exp s3 in
      Some ({| nm_negative := neg; nm_integer := int;
               nm_frac := frac; nm_exp := exp |}, s4)
  end.

(** The number a string of decimal digits denotes. *)
Definition digits_value (ds : pystr) : N :=
  fold_left (fun acc d => acc * 10 + (d - 48)) ds 0.

(** [int(integer)]. *)
Definition py_int (negative : bool) (ds : pystr) : Z :=
  let n := Z.of_N (digits_value ds) in
  if negative then Z.opp n else n.

(** The binary64 nearest to [m * 10 ^ x], ties to even: what [float] returns
    for a decimal literal. *)
Definition binary64_of_decimal (negative : bool) (m : N) (x : Z) : spec_float :=
  match m with
  | N0 => S754_zero negative
  | Npos p =>
      if Z.leb 0 x
      then binary_round 53 1024 negative (Z.to_pos (Zpos p * 10 ^ x)) 0
      else SFdiv 53 1024 (S754_finite negative p 0)
                         (S754_finite false (Pos.pow 10 (Z.to_pos (Z.opp x))) 0)
  end.

(** [float(integer + frac + exp)] on the groups of a number. *)
Definition py_float (m : number_match) : spec_float :=
  let frac := match nm_frac m with Some ds => ds | None => [] end in
  let exp := match nm_exp m with
             | Some (neg, ds) => py_int neg ds
             | None => 0%Z
             end in
  binary64_of_decimal (nm_negative m)
    (digits_value (nm_integer m ++ frac))
    (exp - Z.of_nat (length frac)).

(** The value of a matched number: an [int] unless it has a fraction or an
    exponent. *)
Definition number_value (m : number_match) : json :=
  match nm_frac m, nm_exp m with
  | None, None => JInt (py_int (nm_negative m) (nm_integer m))
  | _, _ => JFloat (py_float m)
  end.

Definition hex_value (c : N) : option N :=
  if is_digit c then Some (c - 48)
  else if (97 <=? c) && (c <=? 102) then Some (c - 87)
  else if (65 <=? c) && (c <=? 70) then Some (c - 55)
  else None.

(** The four hexadecimal digits of a [\uXXXX] escape. *)
Definition hex4_value (h1 h2 h3 h4 : N) : option N :=
  match hex_value h1, hex_value h2, hex_value h3, hex_value h4 with
  | Some a, Some b, Some c, Some d => Some (((a * 16 + b) * 16 + c) * 16 + d)
  | _, _, _, _ => None
  end.

Definition is_high_surrogate (c : N) : bool := (55296 <=? c) && (c <=? 56319).
Definition is_low_surrogate (c : N) : bool := (56320 <=? c) && (c <=? 57343).

Definition join_surrogates (hi lo : N) : N :=
  65536 + (hi - 55296) * 1024 + (lo - 56320).

(** The character of a one-letter escape. *)
Definition backslash_escape (esc : N) : option N :=
  if N.eqb esc DQUOTE then Some DQUOTE
  else if N.eqb esc BACKSLASH then Some BACKSLASH
  else if N.eqb esc (chr "/") then Some (chr "/")
  else if N.eqb esc (chr "b") then Some 8
  else if N.eqb esc (chr "f") then Some 12
  else if N.eqb esc (chr "n") then Some LF
  else if N.eqb esc (chr "r") then Some CR
  else if N.eqb esc (chr "t") then Some 9
  else None.

(** [scanstring(s, end, strict=True)]: [s] starts after the opening quote,
    [chunks] is the text decoded so far; the result is the string and what
    follows its closing quote. *)
Fixpoint scanstring (s : pystr) (chunks : pystr) {struct s}
  : result (pystr * pystr) :=
  match s with
  | [] => Raise JSONDecodeError
  | c :: s1 =>
      if N.eqb c DQUOTE then Ok (chunks, s1)
      else if N.eqb c BACKSLASH then
        match s1 with
        | [] => Raise JSONDecodeError
        | esc :: s2 =>
            if N.eqb esc (chr "u") then
              match s2 with
              | h1 :: h2 :: h3 :: h4 :: s6 =>
                  match hex4_value h1 h2 h3 h4 with
                  | None => Raise JSONDecodeError
                  | Some uni =>
                      match s6 with
                      | b :: u :: k1 :: k2 :: k3 :: k4 :: s12 =>
                          if is_high_surrogate uni && N.eqb b BACKSLASH
                             && N.eqb u (chr "u")
                          then
                            match hex4_value k1 k2 k3 k4 with
                            | None => Raise JSONDecodeError
                            | Some uni2 =>
                                if is_low_surrogate uni2
                                then scanstring s12
                                       (chunks ++ [join_surrogates uni uni2])
                                else scanstring s6 (chunks ++ [uni])
                            end
                          else scanstring s6 (chunks ++ [uni])
                      | _ => scanstring s6 (chunks ++ [uni])
                      end
                  end
              | _ => Raise JSONDecodeError
              end
            else
              match backslash_escape esc with
              | Some ch => scanstring s2 (chunks ++ [ch])
              | None => Raise JSONDecodeError
              end
        end
      else if c <? 32 then Raise JSONDecodeError
      else scanstring s1 (chunks ++ [c])
  end.

(** [dict(pairs)]: a repeated key keeps its first position and its last
    value. *)
Definition dict_of_pairs (pairs : list (pystr * json)) : dict :=
  fold_left (fun d kv => dict_set d (fst kv) (snd kv)) pairs [].

(** [scan_once(s, idx)], [JSONArray] and [JSONObject].  The scanner recurses
    on nested values; [fuel] bounds the recursion, and running out of it is
    the RecursionError of the interpreter. *)
Fixpoint scan_once (fuel : nat) (s : pystr) {struct fuel}
  : result (json * pystr) :=
  match fuel with
  | O => Raise RecursionError
  | S fuel' =>
      match s with
      | [] => Raise JSONDecodeError
      | c :: s1 =>
          if N.eqb c DQUOTE then
            r <- scanstring s1 [] ;; Ok (JStr (fst r), snd r)
          else if N.eqb c (chr "{") then
            match skip_ws s1 with
            | d :: s2 =>
                if N.eqb d (chr "}") then Ok (JObj [], s2)
                else if N.eqb d DQUOTE then JSONObject_loop fuel' s2 []
                else Raise JSONDecodeError
            | [] => Raise JSONDecodeError
            end
          else if N.eqb c (chr "[") then
            match skip_ws s1 with
            | d :: s2 =>
                if N.eqb d (chr "]") then Ok (JArr [], s2)
                else JSONArray_loop fuel' (d :: s2) []
            | [] => Raise JSONDecodeError
            end
          else
            match strip_prefix (py "null") s, strip_prefix (py "true") s,
                  strip_prefix (py "false") s with
            | Some r, _, _ => Ok (JNull, r)
            | _, Some r, _ => Ok (JBool true, r)
            | _, _, Some r => Ok (JBool false, r)
            | None, None, None =>
                match match_number s with
                | Some (m, r) => Ok (number_value m, r)
                | None =>
                    match strip_prefix (py "NaN") s,
                          strip_prefix (py "Infinity") s,
                          strip_prefix (py "-Infinity") s with
                    | Some r, _, _ => Ok (JFloat S754_nan, r)
                    | _, Some r, _ => Ok (JFloat (S754_infinity false), r)
                    | _, _, Some r => Ok (JFloat (S754_infinity true), r)
                    | None, None, None => Raise JSONDecodeError
                    end
                end
            end
      end
  end

(** The [while True] loop of [JSONArray]: [s] starts at the next value. *)
with JSONArray_loop (fuel : nat) (s : pystr) (values : list json)
    {struct fuel} : result (json * pystr) :=
  match fuel with
  | O => Raise RecursionError
  | S fuel' =>
      r <- scan_once fuel' s ;;
      let values := values ++ [fst r] in
      match skip_ws (snd r) with
      | c :: s1 =>
          if N.eqb c (chr "]") then Ok (JArr values, s1)
          else if N.eqb c COMMA then JSONArray_loop fuel' (skip_ws s1) values
          else Raise JSONDecodeError
      | [] => Raise JSONDecodeError
      end
  end

(** The [while True] loop of [JSONObject]: [s] starts after the opening
    quote of the next key. *)
with JSONObject_loop (fuel : nat) (s : pystr) (pairs : list (pystr * json))
    {struct fuel} : result (json * pystr) :=
  match fuel with
  | O => Raise RecursionError
  | S fuel' =>
      k <- scanstring s [] ;;
      match skip_ws (snd k) with
      | c :: s1 =>
          if N.eqb c (chr ":") then
            r <- scan_once fuel' (skip_ws s1) ;;
            let pairs := pairs ++ [(fst k, fst r)] in
            match skip_ws (snd r) with
            | d :: s2 =>
                if N.eqb d (chr "}") then Ok (JObj (dict_of_pairs pairs), s2)
                else if N.eqb d COMMA then
                  match skip_ws s2 with
                  | q :: s3 =>
                      if N.eqb q DQUOTE then JSONObject_loop fuel' s3 pairs
                      else Raise JSONDecodeError
                  | [] => Raise JSONDecodeError
                  end
                else Raise JSONDecodeError
            | [] => Raise JSONDecodeError
            end
          else Raise JSONDecodeError
      | [] => Raise JSONDecodeError
      end
  end.

(** [json.loads(s)] for a [str]: no byte order mark, one value, nothing but
    white space around it. *)
Definition json_loads (s : pystr) : result json :=
  match s with
  | 65279 :: _ => Raise JSONDecodeError
  | _ =>
      r <- scan_once (2 * length s + 2) (skip_ws s) ;;
      match skip_ws (snd r) with
      | [] => Ok (fst r)
      | _ :: _ => Raise JSONDecodeError
      end
  end.

(** ** The JSON encoder

    [json.dumps(obj, indent=4)]: the default [ensure_ascii], the item
    separator a comma followed by a new line and the indentation, the key
    separator a colon and a space. *)

(** The decimal digits of [n], most significant first, in front of [acc];
    [fuel] bounds the number of digits. *)
Fixpoint digits_of (fuel : nat) (n : N) (acc : pystr) : pystr :=
  match fuel with
  | O => acc
  | S fuel' =>
      let acc' := (48 + n mod 10) :: acc in
      if n <? 10 then acc' else digits_of fuel' (n / 10) acc'
  end.

(** [int.__repr__]. *)
Definition int_repr (z : Z) : pystr :=
  let n := Z.abs_N z in
  let ds := digits_of (S (N.to_nat (N.log2 n))) n [] in
  if Z.ltb z 0 then chr "-" :: ds else ds.

Definition hex_digit (n : N) : N := if n <? 10 then 48 + n else 87 + n.

(** The four lower-case hexadecimal digits of [n]. *)
Definition hex4 (n : N) : pystr :=
  [hex_digit (n / 4096); hex_digit ((n / 256) mod 16);
   hex_digit ((n / 16) mod 16); hex_digit (n mod 16)].

(** One character of a string, as [py_encode_basestring_ascii] writes it. *)
Definition escape_char (c : N) : pystr :=
  if N.eqb c DQUOTE then [BACKSLASH; DQUOTE]
  else if N.eqb c BACKSLASH then [BACKSLASH; BACKSLASH]
  else if N.eqb c LF then [BACKSLASH; chr "n"]
  else if N.eqb c CR then [BACKSLASH; chr "r"]
  else if N.eqb c 9 then [BACKSLASH; chr "t"]
  else if N.eqb c 12 then [BACKSLASH; chr "f"]
  else if N.eqb c 8 then [BACKSLASH; chr "b"]
  else if (32 <=? c) && (c <=? 126) then [c]
  else if c <? 65536 then BACKSLASH :: chr "u" :: hex4 c
  else
    let v := c - 65536 in
    BACKSLASH :: chr "u" :: hex4 (55296 + (v / 1024) mod 1024)
      ++ BACKSLASH :: chr "u" :: hex4 (56320 + v mod 1024).

Definition encode_basestring_ascii (s : pystr) : pystr :=
  DQUOTE :: flat_map escape_char s ++ [DQUOTE].

(** [_indent * _current_indent_level] for [indent=4]. *)
Definition indentation (level : nat) : pystr := repeat 32 (4 * level).

Section Encoder.

(** [float.__repr__], the shortest decimal text that reads back as the same
    float: outside this development, a parameter of the encoder. *)
Variable float_repr : spec_float -> pystr.

(** [floatstr] of [json.encoder]. *)
Definition floatstr (o : spec_float) : pystr :=
  match o with
  | S754_nan => py "NaN"
  | S754_infinity false => py "Infinity"
  | S754_infinity true => py "-Infinity"
  | _ => float_repr o
  end.

(** [_iterencode(o, _current_indent_level)], its chunks joined. *)
Fixpoint iterencode (o : json) (level : nat) {struct o} : pystr :=
  match o with
  | JNull => py "null"
  | JBool true => py "true"
  | JBool false => py "false"
  | JInt n => int_repr n
  | JFloat f => floatstr f
  | JStr s => encode_basestring_ascii s
  | JArr lst =>
      match lst with
      | [] => py "[]"
      | _ =>
          let newline_indent := LF :: indentation (S level) in
          let separator := COMMA :: newline_indent in
          chr "[" :: newline_indent
            ++ str_join separator (map (fun v => iterencode v (S level)) lst)
            ++ LF :: indentation level ++ [chr "]"]
      end
  | JObj dct =>
      match dct with
      | [] => py "{}"
      | _ =>
          let newline_indent := LF :: indentation (S level) in
          let separator := COMMA :: newline_indent in
          chr "{" :: newline_indent
            ++ str_join separator
                 (map (fun kv => encode_basestring_ascii (fst kv)
                                   ++ py ": " ++ iterencode (snd kv) (S level))
                      dct)
            ++ LF :: indentation level ++ [chr "}"]
      end
  end.

Definition json_dumps (obj : json) : pystr := iterencode obj 0.

End Encoder.

(** ** The table of the spreadsheet encoder *)

(** A [DataFrame] as the encoder uses it: its column labels and its rows, a
    missing cell being [None] (NaN). *)
Record DataFrame : Type := {
  columns : list pystr;
  values : list (list (option json))
}.

Definition dict_lookup (d : dict) (key : pystr) : option json :=
  if dict_mem d key then Some (dict_get d key JNull) else None.

Definition label_mem (label : pystr) (labels : list pystr) : bool :=
  existsb (pystr_eqb label) labels.

(** The labels [pd.DataFrame] infers from a list of dicts: every key, in the
    order of its first appearance. *)
Definition infer_columns (records : list dict) : list pystr :=
  fold_left
    (fun labels d =>
       fold_left (fun labels k =>
                    if label_mem k labels then labels else labels ++ [k])
                 (map fst d) labels)
    records [].

(** The records of the list when each of them is a dict. *)
Fixpoint as_records (data : list json) : option (list dict) :=
  match data with
  | [] => Some []
  | JObj d :: rest =>
      match as_records rest with
      | Some ds => Some (d :: ds)
      | None => None
      end
  | _ :: _ => None
  end.

(** [pd.DataFrame(json_data_list)] on a list of dicts.  What pandas does
    with a record that is not a dict is not part of this development: the
    model answers [NotModelled] there. *)
Definition pd_DataFrame (data : list json) : result DataFrame :=
  match as_records data with
  | Some records =>
      let labels := infer_columns records in
      Ok {| columns := labels;
            values := map (fun d => map (dict_lookup d) labels) records |}
  | None => Raise NotModelled
  end.

(** [df.columns = labels]. *)
Definition set_columns (df : DataFrame) (labels : list pystr) : DataFrame :=
  {| columns := labels; values := values df |}.

(** ** Uploaded files, messages and the encoders *)

(** An uploaded file: its name and the bytes [read()] returns. *)
Record UploadedFile : Type := {
  name : pystr;
  getvalue : bytes
}.

(** What [st.error] is called with. *)
Inductive notice : Type :=
| ErrorProcessingFile (file_name : pystr) (e : exn)
    (* f"Error processing file {json_file.name}: {e}" *)
| HeaderCountMismatch.
    (* "Number of custom headers must match the number of JSON fields." *)

(** The state an encoder acts on: the messages shown so far and the
    [io.StringIO] buffer behind the csv writer. *)
Record world : Type := {
  st_errors : list notice;
  csv_output : pystr
}.

(** A computation that reads and changes the state and may raise. *)
Definition M (A : Type) : Type := world -> result A * world.

Definition ret {A} (a : A) : M A := fun w => (Ok a, w).

Definition lift {A} (r : result A) : M A := fun w => (r, w).

Definition bindM {A B} (m : M A) (k : A -> M B) : M B :=
  fun w =>
    match m w with
    | (Ok a, w') => k a w'
    | (Raise e, w') => (Raise e, w')
    end.

Notation "x <~ e ;; k" := (bindM e (fun x => k))
  (at level 61, e at next level, right associativity).
Notation "e ;;; k" := (bindM e (fun _ => k))
  (at level 61, right associativity).

Definition st_error (n : notice) : M unit :=
  fun w => (Ok tt, {| st_errors := st_errors w ++ [n];
                      csv_output := csv_output w |}).

(** [csv_output = io.StringIO()]. *)
Definition StringIO : M unit :=
  fun w => (Ok tt, {| st_errors := st_errors w; csv_output := [] |}).

(** [csv_output.write(text)]. *)
Definition write (text : pystr) : M unit :=
  fun w => (Ok tt, {| st_errors := st_errors w;
                      csv_output := csv_output w ++ text |}).

(** [csv_output.getvalue()]. *)
Definition StringIO_getvalue : M pystr := fun w => (Ok (csv_output w), w).

(** [writer.writerow(row)] for a row of strings. *)
Definition writerow (row : list pystr) : M unit :=
  write (csv_record row ++ lineterminator).

(** Reading a text stream with universal newlines: CR LF and CR become LF. *)
Fixpoint universal_newlines (s : pystr) : pystr :=
  match s with
  | [] => []
  | c :: s' =>
      if N.eqb c CR then
        LF :: match s' with
              | d :: s'' =>
                  if N.eqb d LF then universal_newlines s''
                  else universal_newlines s'
              | [] => []
              end
      else c :: universal_newlines s'
  end.

(** [json.load(io.TextIOWrapper(json_file, encoding='utf-8'))]. *)
Definition json_load (json_file : UploadedFile) : result json :=
  text <- utf8_decode (getvalue json_file) ;;
  json_loads (universal_newlines text).

(** [except (json.JSONDecodeError, TypeError)]. *)
Definition caught (e : exn) : bool :=
  match e with
  | JSONDecodeError | TypeError => true
  | _ => false
  end.

(** The loop that loads the files, the same in the three encoders;
    [json_data_list] is the list built so far. *)
Fixpoint load_json_files (json_files : list UploadedFile)
    (json_data_list : list json) : M (list json) :=
  match json_files with
  | [] => ret json_data_list
  | json_file :: rest =>
      match json_load json_file with
      | Ok json_data => load_json_files rest (json_data_list ++ [json_data])
      | Raise e =>
          if caught e then
            st_error (ErrorProcessingFile (name json_file) e) ;;;
            load_json_files rest json_data_list
          else lift (Raise e)
      end
  end.

(** The loop that writes one row for each document. *)
Fixpoint write_rows (json_data_list : list json) (custom_headers : list pystr)
  : M unit :=
  match json_data_list with
  | [] => ret tt
  | json_data :: rest =>
      csv_rows <~ lift (json_to_csv_rows json_data custom_headers) ;;
      writerow csv_rows ;;;
      write_rows rest custom_headers
  end.

Definition convert_multiple_json_to_csv (json_files : list UploadedFile)
    (custom_headers : list pystr) : M bytes :=
  StringIO ;;;
  json_data_list <~ load_json_files json_files [] ;;
  writerow custom_headers ;;;
  write_rows json_data_list custom_headers ;;;
  text <~ StringIO_getvalue ;;
  lift (utf8_encode text).

(** The format chosen in the select box. *)
Inductive file_format : Type := CSV | Excel | JSON.

Section Encoders.

Variable float_repr : spec_float -> pystr.

(** [df.to_excel(excel_output, index=False, engine='openpyxl')] and the bytes
    of [excel_output]: the workbook writer is a parameter. *)
Variable to_excel : DataFrame -> result bytes.

Definition convert_json_to_excel (json_files : list UploadedFile)
    (custom_headers : list pystr) : M bytes :=
  json_data_list <~ load_json_files json_files [] ;;
  df <~ lift (pd_DataFrame json_data_list) ;;
  df <~ (if Nat.eqb (length custom_headers) (length (columns df))
         then ret (set_columns df custom_headers)
         else st_error HeaderCountMismatch ;;; ret df) ;;
  lift (to_excel df).

Definition convert_json_to_json (json_files : list UploadedFile) : M bytes :=
  json_data_list <~ load_json_files json_files [] ;;
  lift (utf8_encode (json_dumps float_repr (JArr json_data_list))).

(** The branch of the page that calls the encoder of the chosen format. *)
Definition export (format : file_format) (uploaded_files : list UploadedFile)
    (custom_headers : list pystr) : M bytes :=
  match format with
  | CSV => convert_multiple_json_to_csv uploaded_files custom_headers
  | Excel => convert_json_to_excel uploaded_files custom_headers
  | JSON => convert_json_to_json uploaded_files
  end.

End Encoders.

(** ** Predicates of the statements *)

Definition is_str (v : json) : bool :=
  match v with JStr _ => true | _ => false end.

(** The values the normalizer accepts: a string, a list of strings, or a
    value that tests false. *)
Definition normalizable (v : json) : bool :=
  match v with
  | JStr _ => true
  | JArr items => forallb is_str items
  | _ => negb (truthy v)
  end.

(** The line the csv writer writes for a row. *)
Definition csv_line (row : list pystr) : pystr :=
  csv_record row ++ lineterminator.

(** The documents of the files that load, in the order of the files. *)
Definition valid_documents (json_files : list UploadedFile) : list json :=
  flat_map (fun f => match json_load f with Ok d => [d] | Raise _ => [] end)
           json_files.

(** The message for each file that does not load, in the order of the
    files. *)
Definition parse_errors (json_files : list UploadedFile) : list notice :=
  flat_map (fun f => match json_load f with
                     | Ok _ => []
                     | Raise e => [ErrorProcessingFile (name f) e]
                     end)
           json_files.

(** No file raises an exception the loading loop lets through. *)
Definition all_caught (json_files : list UploadedFile) : bool :=
  forallb (fun f => match json_load f with
                    | Ok _ => true
                    | Raise e => caught e
                    end)
          json_files.

(** The rows of the documents up to the first one the row mapper raises
    on. *)
Fixpoint rows_written (json_data_list : list json) (headers : list pystr)
  : list (list pystr) :=
  match json_data_list with
  | [] => []
  | json_data :: rest =>
      match json_to_csv_rows json_data headers with
      | Ok row => row :: rows_written rest headers
      | Raise _ => []
      end
  end.

(** The first exception the row mapper raises on the documents, if any. *)
Fixpoint rows_result (json_data_list : list json) (headers : list pystr)
  : result unit :=
  match json_data_list with
  | [] => Ok tt
  | json_data :: rest =>
      match json_to_csv_rows json_data headers with
      | Ok _ => rows_result rest headers
      | Raise e => Raise e
      end
  end.

(** The state with the messages of [w] and the buffer [text]. *)
Definition with_csv_output (w : world) (text : pystr) : world :=
  {| st_errors := st_errors w; csv_output := text |}.

(** The state with the buffer of [w] and the messages [ns] added. *)
Definition with_notices (w : world) (ns : list notice) : world :=
  {| st_errors := st_errors w ++ ns; csv_output := csv_output w |}.



(** ** Inputs of the examples *)

(** The two documents of the example of the specification, as files. *)
Definition file_a1 : UploadedFile :=
  {| name := py "first.json"; getvalue := pyq "{'a':1,'b':'x\ny'}" |}.

Definition file_a2 : UploadedFile :=
  {| name := py "second.json"; getvalue := pyq "{'a':2,'b':'z'}" |}.

(** The same documents with the numbers written as strings. *)
Definition file_s1 : UploadedFile :=
  {| name := py "first.json"; getvalue := pyq "{'a':'1','b':'x\ny'}" |}.

Definition file_s2 : UploadedFile :=
  {| name := py "second.json"; getvalue := pyq "{'a':'2','b':'z'}" |}.

(** A file that is not JSON, and a file that is not UTF-8. *)
Definition file_not_json : UploadedFile :=
  {| name := py "broken.json"; getvalue := pyq "{'a':" |}.

Definition file_not_utf8 : UploadedFile :=
  {| name := py "latin.json"; getvalue := [255] |}.

Definition world0 : world := {| st_errors := []; csv_output := [] |}.

(** ** Well-formed documents *)

(** A string that [json.loads] can return: code points of Unicode, and no
    high surrogate followed by a low one (the decoder joins such a pair). *)
Fixpoint str_ok (s : pystr) : bool :=
  match s with
  | [] => true
  | c :: s' =>
      (c <? 1114112)
      && negb (is_high_surrogate c
               && match s' with d :: _ => is_low_surrogate d | [] => false end)
      && str_ok s'
  end.

(** The keys of a dict are pairwise distinct. *)
Fixpoint keys_unique (d : dict) : bool :=
  match d with
  | [] => true
  | (k, _) :: d' => negb (dict_mem d' k) && keys_unique d'
  end.

(** Every string and key of the value is well formed and no dict repeats a
    key. *)
Fixpoint json_ok (v : json) : bool :=
  match v with
  | JStr s => str_ok s
  | JArr items => forallb json_ok items
  | JObj members =>
      keys_unique members
      && forallb (fun kv => str_ok (fst kv) && json_ok (snd kv)) members
  | _ => true
  end.

Definition spec_float_eqb (f g : spec_float) : bool :=
  match f, g with
  | S754_zero s, S754_zero t => Bool.eqb s t
  | S754_infinity s, S754_infinity t => Bool.eqb s t
  | S754_nan, S754_nan => true
  | S754_finite s m e, S754_finite t n x =>
      Bool.eqb s t && Pos.eqb m n && Z.eqb e x
  | _, _ => false
  end.

(** A character of a number: a digit, a sign, the point, the exponent
    mark. *)
Definition is_number_char (c : N) : bool :=
  is_digit c || N.eqb c (chr "-") || N.eqb c (chr "+") || N.eqb c (chr ".")
  || N.eqb c (chr "e") || N.eqb c (chr "E").

(** The text [float_repr] gives for [f] is a number with a fraction or an
    exponent that [float] reads back as [f]. *)
Definition float_repr_ok (float_repr : spec_float -> pystr) (f : spec_float)
  : bool :=
  match f with
  | S754_nan | S754_infinity _ => true
  | _ =>
      match match_number (float_repr f) with
      | Some (m, []) =>
          match nm_frac m, nm_exp m with
          | None, None => false
          | _, _ => spec_float_eqb (py_float m) f
          end
      | _ => false
      end
  end.

(** [float_repr] is right on every float of the value. *)
Fixpoint floats_ok (float_repr : spec_float -> pystr) (v : json) : bool :=
  match v with
  | JFloat f => float_repr_ok float_repr f
  | JArr items => forallb (floats_ok float_repr) items
  | JObj members => forallb (fun kv => floats_ok float_repr (snd kv)) members
  | _ => true
  end.

(** A bound on the recursion the scanner needs to read a value back. *)
Fixpoint json_size (v : json) : nat :=
  match v with
  | JArr items => S (list_sum (map (fun x => S (json_size x)) items))
  | JObj members => S (list_sum (map (fun kv => S (json_size (snd kv))) members))
  | _ => 1
  end.

(** What may follow a number in a text: nothing, or a character that is not
    part of a number. *)
Definition number_stop (rest : pystr) : bool :=
  match rest with
  | [] => true
  | c :: _ => negb (is_number_char c)
  end.

(** The next step of [scanstring]: the closing quote, one decoded character,
    or an error. *)
Inductive string_token : Type :=
| EndOfString (rest : pystr)
| Char (c : N) (rest : pystr)
| BadString.

Definition next_token (s : pystr) : string_token :=
  match s with
  | [] => BadString
  | c :: s1 =>
      if N.eqb c DQUOTE then EndOfString s1
      else if N.eqb c BACKSLASH then
        match s1 with
        | [] => BadString
        | esc :: s2 =>
            if N.eqb esc (chr "u") then
              match s2 with
              | h1 :: h2 :: h3 :: h4 :: s6 =>
                  match hex4_value h1 h2 h3 h4 with
                  | None => BadString
                  | Some uni =>
                      match s6 with
                      | b :: u :: k1 :: k2 :: k3 :: k4 :: s12 =>
                          if is_high_surrogate uni && N.eqb b BACKSLASH
                             && N.eqb u (chr "u")
                          then
                            match hex4_value k1 k2 k3 k4 with
                            | None => BadString
                            | Some uni2 =>
                                if is_low_surrogate uni2
                                then Char (join_surrogates uni uni2) s12
                                else Char uni s6
                            end
                          else Char uni s6
                      | _ => Char uni s6
                      end
                  end
              | _ => BadString
              end
            else
              match backslash_escape esc with
              | Some ch => Char ch s2
              | None => BadString
              end
        end
      else if c <? 32 then BadString
      else Char c s1
  end.

(** The text after a [\uXXXX] escape does not start with the escape of a low
    surrogate, nor with a malformed one. *)
Definition no_low_escape (s : pystr) : bool :=
  match s with
  | b :: u :: k1 :: k2 :: k3 :: k4 :: _ =>
      if N.eqb b BACKSLASH && N.eqb u (chr "u") then
        match hex4_value k1 k2 k3 k4 with
        | Some uni2 => negb (is_low_surrogate uni2)
        | None => false
        end
      else true
  | _ => true
  end.

(** The shapes of the text [escape_char] writes for a character [c]. *)
Inductive escape_view (c : N) : pystr -> Prop :=
| EscapeShort (x : N) :
    N.eqb x (chr "u") = false -> backslash_escape x = Some c ->
    escape_view c [BACKSLASH; x]
| EscapePlain :
    N.eqb c DQUOTE = false -> N.eqb c BACKSLASH = false -> (c <? 32) = false ->
    escape_view c [c]
| EscapeU (h1 h2 h3 h4 : N) :
    hex4_value h1 h2 h3 h4 = Some c ->
    escape_view c [BACKSLASH; chr "u"; h1; h2; h3; h4]
| EscapePair (h1 h2 h3 h4 k1 k2 k3 k4 hi lo : N) :
    hex4_value h1 h2 h3 h4 = Some hi -> is_high_surrogate hi = true ->
    hex4_value k1 k2 k3 k4 = Some lo -> is_low_surrogate lo = true ->
    join_surrogates hi lo = c ->
    escape_view c [BACKSLASH; chr "u"; h1; h2; h3; h4;
                   BACKSLASH; chr "u"; k1; k2; k3; k4].

(** Induction on a value, with the property at hand for every element of an
    array and every value of a dict. *)
Section JsonInduction.

Variable P : json -> Prop.
Hypothesis Hnull : P JNull.
Hypothesis Hbool : forall b, P (JBool b).
Hypothesis Hint : forall n, P (JInt n).
Hypothesis Hfloat : forall f, P (JFloat f).
Hypothesis Hstr : forall s, P (JStr s).
Hypothesis Harr : forall items, Forall P items -> P (JArr items).
Hypothesis Hobj :
  forall members, Forall (fun kv => P (snd kv)) members -> P (JObj members).

Fixpoint json_induction (v : json) : P v :=
  match v with
  | JNull => Hnull
  | JBool b => Hbool b
  | JInt n => Hint n
  | JFloat f => Hfloat f
  | JStr s => Hstr s
  | JArr items =>
      Harr items
        ((fix all (l : list json) : Forall P l :=
            match l with
            | [] => Forall_nil P
            | x :: l' => Forall_cons x (json_induction x) (all l')
            end) items)
  | JObj members =>
      Hobj members
        ((fix all (l : list (pystr * json))
            : Forall (fun kv => P (snd kv)) l :=
            match l with
            | [] => Forall_nil _
            | kv :: l' =>
                Forall_cons kv (json_induction (snd kv)) (all l')
            end) members)
  end.

End JsonInduction.

(** The scanner reads the text of [v] back as [v], whatever the indentation
    level and whatever follows, given recursion enough. *)
Definition reads_back (float_repr : spec_float -> pystr) (v : json) : Prop :=
  forall (level fuel : nat) (rest : pystr),
    json_ok v = true -> floats_ok float_repr v = true ->
    number_stop rest = true -> (json_size v <= fuel)%nat ->
    scan_once fuel (iterencode float_repr v level ++ rest) = Ok (v, rest).

(** * Properties *)

(** ** Strings and results *)

Lemma pystr_eqb_eq (s t : pystr) : pystr_eqb s t = true <-> s = t.
Proof.
  revert t; induction s as [|c s IH]; intros [|d t]; simpl;
    try (split; [discriminate | congruence]); try tauto.
  rewrite andb_true_iff, N.eqb_eq, IH.
  split; [intros [-> ->]; reflexivity | intros H; inversion H; auto].
Qed.

Lemma pystr_eqb_refl (s : pystr) : pystr_eqb s s = true.
Proof. apply pystr_eqb_eq; reflexivity. Qed.

Lemma pystr_eqb_neq (s t : pystr) : pystr_eqb s t = false <-> s <> t.
Proof.
  rewrite <- pystr_eqb_eq. destruct (pystr_eqb s t); split; congruence.
Qed.

Lemma str_replace_app old new s t :
  str_replace old new (s ++ t) = str_replace old new s ++ str_replace old new t.
Proof. unfold str_replace. apply flat_map_app. Qed.


Lemma bind_Ok_inv {A B} (r : result A) (k : A -> result B) (b : B) :
  bind r k = Ok b -> exists a, r = Ok a /\ k a = Ok b.
Proof. destruct r; simpl; [eauto | discriminate]. Qed.

Lemma bind_assoc {A B C} (r : result A) (k : A -> result B)
    (h : B -> result C) :
  bind (bind r k) h = bind r (fun a => bind (k a) h).
Proof. destruct r; reflexivity. Qed.

Lemma bind_ext {A B} (r : result A) (k h : A -> result B) :
  (forall a, k a = h a) -> bind r k = bind r h.
Proof. intros H. destruct r; simpl; auto. Qed.

Lemma bind_ret {A} (r : result A) : bind r (fun a => Ok a) = r.
Proof. destruct r; reflexivity. Qed.

(** ** Field normalizer *)

Lemma join_items_strs (ss : list pystr) : join_items (map JStr ss) = Ok ss.
Proof.
  induction ss as [|s ss IH]; simpl; [reflexivity|]. rewrite IH. reflexivity.
Qed.

(** A string is normalized to itself with every newline replaced. *)
Lemma clean_multiline_field_str (s : pystr) :
  clean_multiline_field (JStr s) = Ok (str_replace LF (py " | ") s).
Proof. destruct s; reflexivity. Qed.


Lemma join_items_Ok_iff (items : list json) :
  forallb is_str items = true <-> exists ss, join_items items = Ok ss.
Proof.
  induction items as [|v items IH]; simpl.
  - split; eauto.
  - destruct v; simpl;
      try (split; [discriminate | intros [ss H]; discriminate]).
    rewrite IH. split; intros [ss H].
    + rewrite H. simpl. eauto.
    + destruct (join_items items); [eauto | discriminate].
Qed.

(** A list of strings is normalized as the string that joins them. *)
Lemma clean_multiline_field_arr (items : list json) (ss : list pystr) :
  join_items items = Ok ss ->
  clean_multiline_field (JArr items)
  = Ok (str_replace LF (py " | ") (str_join (py ", ") ss)).
Proof.
  intros H. unfold clean_multiline_field, join_method. rewrite H. simpl bind.
  apply (clean_multiline_field_str (str_join (py ", ") ss)).
Qed.

(** The normalizer returns exactly on the values it accepts. *)
Lemma clean_multiline_field_Ok_iff (v : json) :
  normalizable v = true <-> exists s, clean_multiline_field v = Ok s.
Proof.
  destruct v as [ |b|n|f|s|items|members].
  6:{ simpl normalizable. rewrite join_items_Ok_iff. split; intros [x H].
      - rewrite (clean_multiline_field_arr _ _ H). eauto.
      - revert H. unfold clean_multiline_field, join_method.
        destruct (join_items items); [eauto | discriminate]. }
  5:{ rewrite clean_multiline_field_str. split; eauto. }
  all: unfold normalizable, clean_multiline_field, bind, replace_method;
    match goal with |- context [truthy ?x] => destruct (truthy x) end;
    simpl;
    (split; [intros H; try discriminate H; eexists; reflexivity
            | intros [s H]; try discriminate H; reflexivity]).
Qed.

(** C8, as amended: a list of strings is normalized to its elements joined
    by a comma and a space, every newline of the joined text replaced by
    space, bar, space. *)
Theorem clean_multiline_field_list_of_strings (ss : list pystr) :
  clean_multiline_field (JArr (map JStr ss))
  = Ok (str_replace LF (py " | ") (str_join (py ", ") ss)).
Proof.
  apply clean_multiline_field_arr, join_items_strs.
Qed.

(** C8, the counterexample: the one-element list holding the string x,
    newline, y is normalized to [x | y], which is not its elements joined by
    a comma and a space. *)
Lemma clean_multiline_field_list_not_plain_join :
  clean_multiline_field (JArr [JStr [120; 10; 121]]) = Ok (py "x | y")
  /\ py "x | y" <> str_join (py ", ") [[120; 10; 121]].
Proof. split; [reflexivity | discriminate]. Qed.

(** C1: the normalizer raises on a number other than zero, on [True], and
    on a list with an element that is not a string. *)
Theorem clean_multiline_field_raises :
  (forall n : Z, clean_multiline_field (JInt n)
                 = if Z.eqb n 0 then Ok [] else Raise AttributeError)
  /\ clean_multiline_field (JBool true) = Raise AttributeError
  /\ clean_multiline_field (JArr [JInt 1]) = Raise TypeError.
Proof.
  repeat split. intros n. unfold clean_multiline_field; simpl.
  destruct (Z.eqb n 0); reflexivity.
Qed.

(** ** Row mapper *)

(** The loop started on a row built so far appends to it the row of the
    remaining columns. *)
Lemma json_to_csv_rows_loop_acc json_data columns csv_row :
  json_to_csv_rows_loop json_data columns csv_row
  = (row <- json_to_csv_rows json_data columns ;; Ok (csv_row ++ row)).
Proof.
  unfold json_to_csv_rows. revert csv_row.
  induction columns as [|column rest IH]; intros csv_row; simpl.
  - rewrite app_nil_r. reflexivity.
  - destruct (get_method json_data column (JStr [])) as [value|e]; simpl;
      [|reflexivity].
    destruct (clean_multiline_field value) as [cell|e]; simpl; [|reflexivity].
    rewrite (IH (csv_row ++ [cell])), (IH [cell]).
    rewrite bind_assoc. apply bind_ext. intros row. simpl.
    rewrite <- app_assoc. reflexivity.
Qed.

Lemma json_to_csv_rows_cons json_data column rest :
  json_to_csv_rows json_data (column :: rest)
  = (value <- get_method json_data column (JStr []) ;;
     cell <- clean_multiline_field value ;;
     row <- json_to_csv_rows json_data rest ;;
     Ok (cell :: row)).
Proof.
  unfold json_to_csv_rows at 1. simpl.
  apply bind_ext; intros value. apply bind_ext; intros cell.
  apply json_to_csv_rows_loop_acc.
Qed.

Lemma json_to_csv_rows_app json_data columns1 columns2 :
  json_to_csv_rows json_data (columns1 ++ columns2)
  = (row1 <- json_to_csv_rows json_data columns1 ;;
     row2 <- json_to_csv_rows json_data columns2 ;;
     Ok (row1 ++ row2)).
Proof.
  induction columns1 as [|column rest IH]; simpl app.
  - change (json_to_csv_rows json_data []) with (Ok (@nil pystr)). simpl.
    symmetry. apply bind_ret.
  - rewrite !json_to_csv_rows_cons, IH.
    destruct (get_method json_data column (JStr [])) as [value|e]; simpl;
      [|reflexivity].
    destruct (clean_multiline_field value) as [cell|e]; simpl; [|reflexivity].
    destruct (json_to_csv_rows json_data rest) as [row1|e]; simpl;
      [|reflexivity].
    destruct (json_to_csv_rows json_data columns2); reflexivity.
Qed.

(** A row that is returned has one cell for each header. *)
Lemma json_to_csv_rows_length json_data columns row :
  json_to_csv_rows json_data columns = Ok row -> length row = length columns.
Proof.
  revert row. induction columns as [|column rest IH]; intros row.
  - intros H; inversion H; reflexivity.
  - rewrite json_to_csv_rows_cons. intros H.
    apply bind_Ok_inv in H as (value & _ & H).
    apply bind_Ok_inv in H as (cell & _ & H).
    apply bind_Ok_inv in H as (row' & Hrow & H).
    inversion H; subst. simpl. f_equal. apply IH, Hrow.
Qed.



(** The row mapper returns when every field named by a header is one the
    normalizer accepts. *)
Lemma json_to_csv_rows_total d columns :
  Forall (fun column => normalizable (dict_get d column (JStr [])) = true)
         columns ->
  exists row, json_to_csv_rows (JObj d) columns = Ok row.
Proof.
  induction 1 as [|column rest Hc _ IH].
  - exists []; reflexivity.
  - destruct IH as [row Hrow].
    apply clean_multiline_field_Ok_iff in Hc as [cell Hcell].
    exists (cell :: row). rewrite json_to_csv_rows_cons. simpl bind.
    rewrite Hcell. simpl. rewrite Hrow. reflexivity.
Qed.

(** C5: on the document with the one field [a] of value 1 and the header
    [a], the row mapper raises instead of returning a row of length one;
    on the same document with the string 1 it returns that row. *)
Theorem json_to_csv_rows_number_raises :
  json_to_csv_rows (JObj [(py "a", JInt 1)]) [py "a"] = Raise AttributeError
  /\ json_to_csv_rows (JObj [(py "a", JStr (py "1"))]) [py "a"] = Ok [py "1"].
Proof. split; reflexivity. Qed.

Lemma dict_get_absent d column default :
  dict_mem d column = false -> dict_get d column default = default.
Proof.
  unfold dict_mem. induction d as [|[k v] d IH]; simpl; [reflexivity|].
  destruct (pystr_eqb k column); simpl; [discriminate | exact IH].
Qed.

(** C6: a header that names no field of the document contributes the empty
    string to the row and never an error: the normalized default is the
    empty string, the row is the row of the headers before it, the empty
    string, and the row of the headers after it, and the empty string is not
    the text null. *)
Theorem json_to_csv_rows_absent_field d columns1 column columns2 :
  dict_mem d column = false ->
  (value <- get_method (JObj d) column (JStr []) ;;
   clean_multiline_field value) = Ok []
  /\ json_to_csv_rows (JObj d) (columns1 ++ column :: columns2)
     = (row1 <- json_to_csv_rows (JObj d) columns1 ;;
        row2 <- json_to_csv_rows (JObj d) columns2 ;;
        Ok (row1 ++ [] :: row2))
  /\ (forall row,
        json_to_csv_rows (JObj d) (columns1 ++ column :: columns2) = Ok row ->
        nth_error row (length columns1) = Some [])
  /\ [] <> py "null".
Proof.
  intros Habsent.
  assert (Hcell : (value <- get_method (JObj d) column (JStr []) ;;
                   clean_multiline_field value) = Ok []).
  { simpl. rewrite (dict_get_absent _ _ _ Habsent). reflexivity. }
  assert (Hrow : json_to_csv_rows (JObj d) (columns1 ++ column :: columns2)
                 = (row1 <- json_to_csv_rows (JObj d) columns1 ;;
                    row2 <- json_to_csv_rows (JObj d) columns2 ;;
                    Ok (row1 ++ [] :: row2))).
  { rewrite json_to_csv_rows_app, json_to_csv_rows_cons.
    apply bind_ext; intros row1.
    simpl in Hcell. simpl bind at 1. rewrite Hcell. simpl bind at 2.
    destruct (json_to_csv_rows (JObj d) columns2); reflexivity. }
  repeat split; [exact Hcell | exact Hrow | | discriminate].
  intros row. rewrite Hrow. intros H.
  apply bind_Ok_inv in H as (row1 & H1 & H).
  apply bind_Ok_inv in H as (row2 & H2 & H).
  inversion H; subst.
  rewrite <- (json_to_csv_rows_length _ _ _ H1).
  rewrite nth_error_app2, Nat.sub_diag; [reflexivity | apply Nat.le_refl].
Qed.

Lemma json_to_csv_rows_absent_field_witness :
  dict_mem [(py "a", JStr (py "x"))] (py "b") = false
  /\ json_to_csv_rows (JObj [(py "a", JStr (py "x"))]) [py "a"; py "b"]
     = Ok [py "x"; []].
Proof.
  split; [reflexivity|].
  destruct (json_to_csv_rows_absent_field
              [(py "a", JStr (py "x"))] [py "a"] (py "b") [] eq_refl)
    as (_ & H & _).
  exact H.
Defined.

(** ** Loading the files *)

Lemma with_notices_nil (w : world) : with_notices w [] = w.
Proof. destruct w; unfold with_notices; simpl. rewrite app_nil_r. reflexivity. Qed.

Lemma with_notices_app (w : world) (ns ms : list notice) :
  with_notices (with_notices w ns) ms = with_notices w (ns ++ ms).
Proof. unfold with_notices; simpl. rewrite app_assoc. reflexivity. Qed.

(** When no file raises anything but what the loop catches, the loop returns
    the documents of the files that load, after those it started with, and
    shows one message for each file that does not load. *)
Lemma load_json_files_all_caught json_files json_data_list w :
  all_caught json_files = true ->
  load_json_files json_files json_data_list w
  = (Ok (json_data_list ++ valid_documents json_files),
     with_notices w (parse_errors json_files)).
Proof.
  revert json_data_list w.
  induction json_files as [|f rest IH]; intros acc w; simpl.
  - intros _. unfold ret. rewrite app_nil_r, with_notices_nil. reflexivity.
  - unfold valid_documents, parse_errors; simpl.
    destruct (json_load f) as [d|e]; simpl.
    + intros H. rewrite (IH _ _ H), <- app_assoc. reflexivity.
    + rewrite andb_true_iff. intros [He H]. rewrite He.
      unfold bindM, st_error.
      rewrite (IH _ _ H).
      change {| st_errors := st_errors w ++ [ErrorProcessingFile (name f) e];
                csv_output := csv_output w |}
        with (with_notices w [ErrorProcessingFile (name f) e]).
      rewrite with_notices_app. reflexivity.
Qed.

(** The loop changes no buffer and only adds messages. *)
Lemma load_json_files_csv_output json_files json_data_list w :
  csv_output (snd (load_json_files json_files json_data_list w))
  = csv_output w.
Proof.
  revert json_data_list w.
  induction json_files as [|f rest IH]; intros acc w; simpl; [reflexivity|].
  destruct (json_load f) as [d|e]; [apply IH|].
  destruct (caught e); [|reflexivity].
  unfold bindM, st_error. rewrite IH. reflexivity.
Qed.

(** The loop stops at the first file that raises an exception it does not
    catch, and lets that exception through. *)
Lemma load_json_files_uncaught json_files1 f json_files2 json_data_list w e :
  all_caught json_files1 = true ->
  json_load f = Raise e -> caught e = false ->
  load_json_files (json_files1 ++ f :: json_files2) json_data_list w
  = (Raise e, with_notices w (parse_errors json_files1)).
Proof.
  revert json_data_list w.
  induction json_files1 as [|g rest IH]; intros acc w; simpl.
  - intros _ Hf He. rewrite Hf, He, with_notices_nil. reflexivity.
  - unfold parse_errors; simpl.
    destruct (json_load g) as [d|e']; simpl.
    + intros H Hf He. apply (IH _ _ H Hf He).
    + rewrite andb_true_iff. intros [He' H] Hf He. rewrite He'.
      unfold bindM, st_error.
      rewrite (IH _ _ H Hf He).
      change {| st_errors := st_errors w ++ [ErrorProcessingFile (name g) e'];
                csv_output := csv_output w |}
        with (with_notices w [ErrorProcessingFile (name g) e']).
      rewrite with_notices_app. reflexivity.
Qed.

(** ** The csv writer and the delimited-text encoder *)




(** The loop that writes the rows appends one line for each row the mapper
    returns, up to the first document it raises on. *)
Lemma write_rows_eq json_data_list custom_headers w :
  write_rows json_data_list custom_headers w
  = (rows_result json_data_list custom_headers,
     with_csv_output w
       (csv_output w
        ++ concat (map csv_line (rows_written json_data_list custom_headers)))).
Proof.
  revert w. induction json_data_list as [|json_data rest IH]; intros w; simpl.
  - unfold ret, with_csv_output. rewrite app_nil_r. destruct w; reflexivity.
  - unfold bindM, lift.
    destruct (json_to_csv_rows json_data custom_headers) as [row|e]; simpl.
    + unfold writerow, write. rewrite IH. unfold with_csv_output; simpl.
      rewrite <- app_assoc. reflexivity.
    + unfold with_csv_output. rewrite app_nil_r. destruct w; reflexivity.
Qed.

(** The delimited-text encoder: it starts from an empty buffer and loads the
    files; if the loop lets an exception through, nothing is written; if
    not, the buffer holds the line of the headers and the lines of the rows
    written, and the result is the first exception of the row mapper or the
    encoded buffer. *)
Lemma convert_multiple_json_to_csv_eq json_files custom_headers w :
  convert_multiple_json_to_csv json_files custom_headers w
  = match load_json_files json_files [] (with_csv_output w []) with
    | (Raise e, w1) => (Raise e, w1)
    | (Ok json_data_list, w1) =>
        let text :=
          concat (map csv_line
                      (custom_headers
                       :: rows_written json_data_list custom_headers)) in
        (_ <- rows_result json_data_list custom_headers ;; utf8_encode text,
         with_csv_output w1 text)
    end.
Proof.
  unfold convert_multiple_json_to_csv, bindM at 1, StringIO.
  change {| st_errors := st_errors w; csv_output := [] |}
    with (with_csv_output w []).
  unfold bindM at 1.
  pose proof (load_json_files_csv_output json_files [] (with_csv_output w []))
    as Hbuf.
  destruct (load_json_files json_files [] (with_csv_output w []))
    as [[docs|e] w1]; [|reflexivity].
  simpl in Hbuf. unfold bindM at 1, writerow, write. unfold bindM at 1.
  rewrite write_rows_eq. simpl csv_output. rewrite Hbuf. simpl app.
  simpl map. simpl concat. unfold csv_line at 2 4.
  destruct (rows_result docs custom_headers) as [[]|e]; reflexivity.
Qed.

(** ** The bytes of the delimited text *)

Lemma utf8_encode_app (s t : pystr) :
  utf8_encode (s ++ t)
  = (a <- utf8_encode s ;; b <- utf8_encode t ;; Ok (a ++ b)).
Proof.
  induction s as [|c s IH]; simpl.
  - symmetry. apply bind_ret.
  - destruct (utf8_encode_char c) as [b|e]; simpl; [|reflexivity].
    rewrite IH. destruct (utf8_encode s) as [a|e]; simpl; [|reflexivity].
    destruct (utf8_encode t) as [b'|e]; simpl; [|reflexivity].
    rewrite app_assoc. reflexivity.
Qed.









(** ** The example of the specification *)

Lemma json_load_file_a1 :
  json_load file_a1 = Ok (JObj [(py "a", JInt 1); (py "b", JStr [120; 10; 121])]).
Proof. reflexivity. Qed.

Lemma json_load_file_a2 :
  json_load file_a2 = Ok (JObj [(py "a", JInt 2); (py "b", JStr (py "z"))]).
Proof. reflexivity. Qed.

(** C2: on the two documents of the example and the headers [a], [b], the
    delimited-text encoder writes the line of the headers and then raises
    AttributeError on the number of the first document: it returns no
    text. *)
Theorem convert_multiple_json_to_csv_example_raises :
  valid_documents [file_a1; file_a2]
  = [JObj [(py "a", JInt 1); (py "b", JStr [120; 10; 121])];
     JObj [(py "a", JInt 2); (py "b", JStr (py "z"))]]
  /\ convert_multiple_json_to_csv [file_a1; file_a2] [py "a"; py "b"] world0
     = (Raise AttributeError,
        {| st_errors := []; csv_output := py "a,b" ++ [CR; LF] |}).
Proof. split; reflexivity. Qed.

(** With the numbers written as strings the encoder returns the three lines
    of the example, each ended by CR LF. *)
Lemma convert_multiple_json_to_csv_example_strings :
  fst (convert_multiple_json_to_csv [file_s1; file_s2] [py "a"; py "b"] world0)
  = Ok (py "a,b" ++ [CR; LF] ++ py "1,x | y" ++ [CR; LF]
        ++ py "2,z" ++ [CR; LF]).
Proof. reflexivity. Qed.


(** ** Files that do not load *)

(** C9: a file that is not UTF-8 makes each of the three encoders raise
    UnicodeDecodeError, after a valid file or before one: the file is not
    skipped and nothing is exported.  A file that is UTF-8 but not JSON is
    skipped and reported, and the export goes on. *)
Theorem export_not_utf8_raises float_repr to_excel format custom_headers :
  export float_repr to_excel format [file_s1; file_not_utf8; file_s2]
         custom_headers world0
  = (Raise UnicodeDecodeError, world0)
  /\ load_json_files [file_s1; file_not_json; file_s2] [] world0
     = (Ok (valid_documents [file_s1; file_s2]),
        {| st_errors :=
             [ErrorProcessingFile (py "broken.json") JSONDecodeError];
           csv_output := [] |}).
Proof.
  split; [destruct format|]; reflexivity.
Qed.

(** With no valid document the delimited-text encoder returns the line of
    the headers alone, the spreadsheet encoder writes the table with no
    column and no row, and the aggregated-JSON encoder returns the empty
    array. *)
Lemma encoders_no_valid_document float_repr to_excel json_files custom_headers w :
  all_caught json_files = true ->
  valid_documents json_files = [] ->
  let w1 := with_notices w (parse_errors json_files) in
  convert_multiple_json_to_csv json_files custom_headers w
  = (utf8_encode (csv_line custom_headers),
     with_csv_output w1 (csv_line custom_headers))
  /\ convert_json_to_excel to_excel json_files custom_headers w
     = (to_excel {| columns := []; values := [] |},
        match custom_headers with
        | [] => w1
        | _ => with_notices w1 [HeaderCountMismatch]
        end)
  /\ convert_json_to_json float_repr json_files w = (Ok (py "[]"), w1).
Proof.
  intros Hcaught Hvalid w1. repeat split.
  - rewrite convert_multiple_json_to_csv_eq.
    rewrite (load_json_files_all_caught _ _ _ Hcaught), Hvalid. simpl.
    unfold csv_line at 1 2. rewrite app_nil_r. reflexivity.
  - unfold convert_json_to_excel, bindM at 1.
    rewrite (load_json_files_all_caught _ _ _ Hcaught), Hvalid. simpl.
    destruct custom_headers; reflexivity.
  - unfold convert_json_to_json, bindM.
    rewrite (load_json_files_all_caught _ _ _ Hcaught), Hvalid. reflexivity.
Qed.

(** ** The spreadsheet encoder *)

(** C3: when the files load and the documents are dicts, the spreadsheet
    encoder writes the inferred table with the headers as its column labels
    and reports nothing if there are as many headers as inferred columns;
    if not, it reports the mismatch and writes the inferred table with its
    own labels. *)
Theorem convert_json_to_excel_headers
    to_excel json_files custom_headers w json_data_list w1 records :
  load_json_files json_files [] w = (Ok json_data_list, w1) ->
  as_records json_data_list = Some records ->
  let df := {| columns := infer_columns records;
               values := map (fun d => map (dict_lookup d)
                                           (infer_columns records))
                             records |} in
  (length custom_headers = length (infer_columns records) ->
   convert_json_to_excel to_excel json_files custom_headers w
   = (to_excel {| columns := custom_headers; values := values df |}, w1))
  /\ (length custom_headers <> length (infer_columns records) ->
      convert_json_to_excel to_excel json_files custom_headers w
      = (to_excel df, with_notices w1 [HeaderCountMismatch])).
Proof.
  intros Hload Hrec df.
  assert (Heq : convert_json_to_excel to_excel json_files custom_headers w
                = if Nat.eqb (length custom_headers)
                             (length (infer_columns records))
                  then (to_excel {| columns := custom_headers;
                                    values := values df |}, w1)
                  else (to_excel df, with_notices w1 [HeaderCountMismatch])).
  { unfold convert_json_to_excel, bindM at 1. rewrite Hload.
    unfold bindM at 1, lift, pd_DataFrame. rewrite Hrec. fold df.
    unfold bindM at 1. change (columns df) with (infer_columns records).
    destruct (Nat.eqb (length custom_headers)
                      (length (infer_columns records))); reflexivity. }
  rewrite Heq. split; intros Hlen.
  - apply Nat.eqb_eq in Hlen. rewrite Hlen. reflexivity.
  - apply Nat.eqb_neq in Hlen. rewrite Hlen. reflexivity.
Qed.

Lemma convert_json_to_excel_headers_witness :
  (load_json_files [file_a1; file_a2] [] world0
   = (Ok (valid_documents [file_a1; file_a2]), world0)
   /\ as_records (valid_documents [file_a1; file_a2])
      = Some [[(py "a", JInt 1); (py "b", JStr [120; 10; 121])];
              [(py "a", JInt 2); (py "b", JStr (py "z"))]])
  /\ convert_json_to_excel (fun df => Ok (concat (columns df)))
       [file_a1; file_a2] [py "x"; py "y"] world0
     = (Ok (py "xy"), world0)
  /\ convert_json_to_excel (fun df => Ok (concat (columns df)))
       [file_a1; file_a2] [py "x"; py "y"; py "z"] world0
     = (Ok (py "ab"), with_notices world0 [HeaderCountMismatch]).
Proof.
  split; [split; reflexivity|]. split.
  - exact (proj1 (convert_json_to_excel_headers
                    (fun df => Ok (concat (columns df)))
                    [file_a1; file_a2] [py "x"; py "y"] world0 _ world0 _
                    eq_refl eq_refl) eq_refl).
  - refine (proj2 (convert_json_to_excel_headers
                     (fun df => Ok (concat (columns df)))
                     [file_a1; file_a2] [py "x"; py "y"; py "z"] world0 _
                     world0 _ eq_refl eq_refl) _).
    discriminate.
Defined.

(** ** Reading a string back *)

(** [scanstring] goes token by token. *)
Lemma scanstring_step (s chunks : pystr) :
  scanstring s chunks
  = match next_token s with
    | EndOfString rest => Ok (chunks, rest)
    | Char c rest => scanstring rest (chunks ++ [c])
    | BadString => Raise JSONDecodeError
    end.
Proof.
  destruct s as [|c s1]; [reflexivity|]. simpl.
  destruct (N.eqb c DQUOTE); [reflexivity|].
  destruct (N.eqb c BACKSLASH); [|destruct (c <? 32); reflexivity].
  destruct s1 as [|esc s2]; [reflexivity|].
  match goal with |- context [N.eqb esc ?k] => destruct (N.eqb esc k) end.
  - destruct s2 as [|h1 [|h2 [|h3 [|h4 s6]]]]; try reflexivity.
    destruct (hex4_value h1 h2 h3 h4) as [uni|]; [|reflexivity].
    destruct s6 as [|b [|u [|k1 [|k2 [|k3 [|k4 s12]]]]]]; try reflexivity.
    match goal with |- context [if ?k then _ else _] => destruct k end;
      [|reflexivity].
    destruct (hex4_value k1 k2 k3 k4) as [uni2|]; [|reflexivity].
    destruct (is_low_surrogate uni2); reflexivity.
  - destruct (backslash_escape esc); reflexivity.
Qed.

(** A token leaves a shorter text. *)
Lemma next_token_Char_length (s : pystr) (c : N) (rest : pystr) :
  next_token s = Char c rest -> (length rest < length s)%nat.
Proof.
  destruct s as [|c0 s1]; [discriminate|]. simpl.
  destruct (N.eqb c0 DQUOTE); [discriminate|].
  destruct (N.eqb c0 BACKSLASH).
  2:{ destruct (c0 <? 32); [discriminate|].
      intros H; inversion H; subst. simpl. lia. }
  destruct s1 as [|esc s2]; [discriminate|].
  match goal with |- context [N.eqb esc ?k] => destruct (N.eqb esc k) end.
  - destruct s2 as [|h1 [|h2 [|h3 [|h4 s6]]]]; try discriminate.
    destruct (hex4_value h1 h2 h3 h4) as [uni|]; [|discriminate].
    destruct s6 as [|b [|u [|k1 [|k2 [|k3 [|k4 s12]]]]]];
      try (intros H; inversion H; subst; simpl; lia).
    match goal with |- context [if ?k then _ else _] => destruct k end;
      [|intros H; inversion H; subst; simpl; lia].
    destruct (hex4_value k1 k2 k3 k4) as [uni2|]; [|discriminate].
    destruct (is_low_surrogate uni2); intros H; inversion H; subst; simpl; lia.
  - destruct (backslash_escape esc); [|discriminate].
    intros H; inversion H; subst. simpl. lia.
Qed.

Ltac div_lia := zify; Z.to_euclidean_division_equations; lia.

Lemma hex_value_hex_digit (k : N) : k < 16 -> hex_value (hex_digit k) = Some k.
Proof.
  intros H. destruct k as [|p]; [reflexivity|].
  do 4 (destruct p as [p|p|]; try reflexivity; try lia).
Qed.

Lemma hex4_value_hex4 (n : N) :
  n < 65536 ->
  match hex4 n with
  | [h1; h2; h3; h4] => hex4_value h1 h2 h3 h4 = Some n
  | _ => False
  end.
Proof.
  intros H. unfold hex4, hex4_value.
  rewrite !hex_value_hex_digit by div_lia. f_equal. div_lia.
Qed.

(** A lone escape is read as its character. *)
Lemma next_token_u (h1 h2 h3 h4 uni : N) (tail : pystr) :
  hex4_value h1 h2 h3 h4 = Some uni ->
  negb (is_high_surrogate uni) || no_low_escape tail = true ->
  next_token (BACKSLASH :: chr "u" :: h1 :: h2 :: h3 :: h4 :: tail)
  = Char uni tail.
Proof.
  intros Hhex Hok. unfold next_token.
  change (N.eqb BACKSLASH DQUOTE) with false.
  change (N.eqb BACKSLASH BACKSLASH) with true.
  change (N.eqb (chr "u") (chr "u")) with true. cbv iota. rewrite Hhex.
  destruct tail as [|b [|u [|k1 [|k2 [|k3 [|k4 s12]]]]]]; try reflexivity.
  unfold no_low_escape in Hok.
  destruct (is_high_surrogate uni); [|reflexivity]. simpl in Hok |- *.
  match goal with |- context [if ?k then _ else _] => destruct k end;
    [|reflexivity].
  destruct (hex4_value k1 k2 k3 k4) as [uni2|]; [|discriminate].
  destruct (is_low_surrogate uni2); [discriminate | reflexivity].
Qed.

(** A pair of escapes of a high and a low surrogate is read as the character
    they stand for. *)
Lemma next_token_u_pair (h1 h2 h3 h4 k1 k2 k3 k4 hi lo : N) (tail : pystr) :
  hex4_value h1 h2 h3 h4 = Some hi -> is_high_surrogate hi = true ->
  hex4_value k1 k2 k3 k4 = Some lo -> is_low_surrogate lo = true ->
  next_token (BACKSLASH :: chr "u" :: h1 :: h2 :: h3 :: h4
              :: BACKSLASH :: chr "u" :: k1 :: k2 :: k3 :: k4 :: tail)
  = Char (join_surrogates hi lo) tail.
Proof.
  intros Hh Hhi Hk Hlo. unfold next_token.
  change (N.eqb BACKSLASH DQUOTE) with false.
  change (N.eqb BACKSLASH BACKSLASH) with true.
  change (N.eqb (chr "u") (chr "u")) with true. cbv iota.
  rewrite Hh, Hhi. simpl andb. cbv iota. rewrite Hk, Hlo. reflexivity.
Qed.

Lemma escape_char_view (c : N) : c < 1114112 -> escape_view c (escape_char c).
Proof.
  intros Hc. unfold escape_char.
  destruct (N.eqb_spec c DQUOTE) as [->|H1];
    [apply (EscapeShort DQUOTE DQUOTE); reflexivity|].
  destruct (N.eqb_spec c BACKSLASH) as [->|H2];
    [apply (EscapeShort BACKSLASH BACKSLASH); reflexivity|].
  destruct (N.eqb_spec c LF) as [->|H3];
    [apply (EscapeShort LF (chr "n")); reflexivity|].
  destruct (N.eqb_spec c CR) as [->|H4];
    [apply (EscapeShort CR (chr "r")); reflexivity|].
  destruct (N.eqb_spec c 9) as [->|H5];
    [apply (EscapeShort 9 (chr "t")); reflexivity|].
  destruct (N.eqb_spec c 12) as [->|H6];
    [apply (EscapeShort 12 (chr "f")); reflexivity|].
  destruct (N.eqb_spec c 8) as [->|H7];
    [apply (EscapeShort 8 (chr "b")); reflexivity|].
  destruct ((32 <=? c) && (c <=? 126)) eqn:Hp.
  - apply andb_true_iff in Hp as [Hlo Hhi]. apply N.leb_le in Hlo.
    apply EscapePlain.
    + apply N.eqb_neq, H1.
    + apply N.eqb_neq, H2.
    + apply N.ltb_ge, Hlo.
  - destruct (N.ltb_spec c 65536) as [Hlt|Hge].
    + pose proof (hex4_value_hex4 c Hlt) as Hhex. unfold hex4 in *.
      apply EscapeU, Hhex.
    + set (v := c - 65536).
      assert (Hhi : 55296 + (v / 1024) mod 1024 < 65536) by (unfold v; div_lia).
      assert (Hl : 56320 + v mod 1024 < 65536) by (unfold v; div_lia).
      pose proof (hex4_value_hex4 _ Hhi) as Hh.
      pose proof (hex4_value_hex4 _ Hl) as Hk.
      unfold hex4 in *. simpl app.
      eapply EscapePair; [exact Hh | | exact Hk | | ].
      * unfold is_high_surrogate. apply andb_true_iff.
        split; apply N.leb_le; div_lia.
      * unfold is_low_surrogate. apply andb_true_iff.
        split; apply N.leb_le; div_lia.
      * unfold join_surrogates, v. div_lia.
Qed.

(** The escape of a character that is not a low surrogate is not taken for
    the second half of a pair. *)
Lemma no_low_escape_escape_char (d : N) (rest : pystr) :
  d < 1114112 -> is_low_surrogate d = false ->
  no_low_escape (escape_char d ++ rest) = true.
Proof.
  intros Hd Hlow. destruct (escape_char_view d Hd)
    as [x Hx _| H1 H2 _ |h1 h2 h3 h4 Hh
        |h1 h2 h3 h4 k1 k2 k3 k4 hi lo Hh Hhi Hk Hlo Hj]; simpl app.
  - destruct rest as [|r1 [|r2 [|r3 [|r4 rest]]]]; try reflexivity.
    unfold no_low_escape. rewrite Hx, andb_false_r. reflexivity.
  - destruct rest as [|r1 [|r2 [|r3 [|r4 [|r5 rest]]]]]; try reflexivity.
    unfold no_low_escape. rewrite H2. reflexivity.
  - unfold no_low_escape. simpl. rewrite Hh, Hlow. reflexivity.
  - unfold no_low_escape. simpl. rewrite Hh.
    assert (Hnl : is_low_surrogate hi = false).
    { unfold is_high_surrogate, is_low_surrogate in *.
      apply andb_true_iff in Hhi as [Ha Hb].
      apply N.leb_le in Ha, Hb. apply andb_false_iff. left.
      apply N.leb_gt. lia. }
    rewrite Hnl. reflexivity.
Qed.

(** The text written for a character is read back as that character. *)
Lemma next_token_escape_char (c : N) (tail : pystr) :
  c < 1114112 ->
  negb (is_high_surrogate c) || no_low_escape tail = true ->
  next_token (escape_char c ++ tail) = Char c tail.
Proof.
  intros Hc Hok. destruct (escape_char_view c Hc)
    as [x Hx Hesc| H1 H2 H3 |h1 h2 h3 h4 Hh
        |h1 h2 h3 h4 k1 k2 k3 k4 hi lo Hh Hhi Hk Hlo Hj]; simpl app.
  - unfold next_token.
    change (N.eqb BACKSLASH DQUOTE) with false.
    change (N.eqb BACKSLASH BACKSLASH) with true. cbv iota.
    rewrite Hx, Hesc. reflexivity.
  - unfold next_token. rewrite H1, H2, H3. reflexivity.
  - apply next_token_u; assumption.
  - rewrite <- Hj. apply next_token_u_pair; assumption.
Qed.

Lemma str_ok_cons (c : N) (s : pystr) :
  str_ok (c :: s) = true ->
  c < 1114112
  /\ (negb (is_high_surrogate c)
      || match s with d :: _ => negb (is_low_surrogate d) | [] => true end
      = true)
  /\ str_ok s = true.
Proof.
  simpl. rewrite !andb_true_iff. intros [[Hc Hp] Hs].
  apply N.ltb_lt in Hc. repeat split; [exact Hc | | exact Hs].
  destruct (is_high_surrogate c); [|reflexivity]. destruct s as [|d s'].
  - reflexivity.
  - simpl in Hp |- *. exact Hp.
Qed.

(** [scanstring] reads back the body of a string [encode_basestring_ascii]
    wrote. *)
Lemma scanstring_escaped (s chunks rest : pystr) :
  str_ok s = true ->
  scanstring (flat_map escape_char s ++ DQUOTE :: rest) chunks
  = Ok (chunks ++ s, rest).
Proof.
  revert chunks. induction s as [|c s IH]; intros chunks Hok.
  - simpl. rewrite app_nil_r. reflexivity.
  - apply str_ok_cons in Hok as (Hc & Hpair & Hs).
    simpl flat_map. rewrite <- app_assoc, scanstring_step.
    rewrite next_token_escape_char; [| exact Hc |].
    + rewrite (IH _ Hs), <- app_assoc. reflexivity.
    + destruct (is_high_surrogate c); [|reflexivity]. simpl in Hpair |- *.
      destruct s as [|d s'].
      * simpl. destruct rest as [|r1 [|r2 [|r3 [|r4 [|r5 rest]]]]];
          reflexivity.
      * simpl flat_map. rewrite <- app_assoc.
        apply str_ok_cons in Hs as (Hd & _ & _).
        apply no_low_escape_escape_char; [exact Hd|].
        apply negb_true_iff, Hpair.
Qed.

(** ** Reading a number back *)

Lemma span_digits_all (s : pystr) :
  forallb is_digit s = true -> span_digits s = (s, []).
Proof.
  induction s as [|c s IH]; simpl; [reflexivity|].
  rewrite andb_true_iff. intros [Hc Hs]. rewrite Hc, (IH Hs). reflexivity.
Qed.

(** What follows the digits does not change them when it starts with no
    digit. *)
Lemma span_digits_app (t rest : pystr) :
  match rest with [] => True | c :: _ => is_digit c = false end ->
  span_digits (t ++ rest) = (fst (span_digits t), snd (span_digits t) ++ rest).
Proof.
  intros Hrest. induction t as [|c t IH]; simpl.
  - destruct rest as [|d rest]; [reflexivity|]. simpl. rewrite Hrest.
    reflexivity.
  - destruct (is_digit c); [|reflexivity].
    rewrite IH. destruct (span_digits t); reflexivity.
Qed.

Lemma number_stop_head (rest : pystr) :
  number_stop rest = true ->
  match rest with
  | [] => True
  | c :: _ =>
      is_digit c = false /\ N.eqb c (chr "-") = false
      /\ N.eqb c (chr "+") = false /\ N.eqb c (chr ".") = false
      /\ N.eqb c (chr "e") = false /\ N.eqb c (chr "E") = false
  end.
Proof.
  destruct rest as [|c rest]; [trivial|]. unfold number_stop, is_number_char.
  rewrite negb_true_iff, !orb_false_iff. tauto.
Qed.

Lemma number_stop_no_digit (rest : pystr) :
  number_stop rest = true ->
  match rest with [] => True | c :: _ => is_digit c = false end.
Proof.
  intros H. apply number_stop_head in H. destruct rest; tauto.
Qed.

Lemma match_integer_app (s rest : pystr) :
  number_stop rest = true ->
  match_integer (s ++ rest)
  = match match_integer s with
    | Some (int, r) => Some (int, r ++ rest)
    | None => None
    end.
Proof.
  intros Hstop. destruct s as [|c s]; simpl.
  - apply number_stop_head in Hstop. destruct rest as [|d rest]; [reflexivity|].
    destruct Hstop as (Hd & _). simpl. rewrite Hd.
    destruct (N.eqb_spec d (chr "0")) as [->|_]; [discriminate | reflexivity].
  - destruct (N.eqb c (chr "0")); [reflexivity|].
    destruct (is_digit c); [|reflexivity].
    rewrite (span_digits_app _ _ (number_stop_no_digit _ Hstop)).
    destruct (span_digits s); reflexivity.
Qed.

Lemma match_frac_app (s rest : pystr) :
  number_stop rest = true ->
  match_frac (s ++ rest) = (fst (match_frac s), snd (match_frac s) ++ rest).
Proof.
  intros Hstop. destruct s as [|c s]; simpl.
  - apply number_stop_head in Hstop. destruct rest as [|d rest]; [reflexivity|].
    destruct Hstop as (_ & _ & _ & Hd & _). simpl. rewrite Hd. reflexivity.
  - destruct (N.eqb c (chr ".")); [|reflexivity].
    rewrite (span_digits_app _ _ (number_stop_no_digit _ Hstop)).
    destruct (span_digits s) as [[|d ds] r]; reflexivity.
Qed.

Lemma match_exp_app (s rest : pystr) :
  number_stop rest = true ->
  match_exp (s ++ rest) = (fst (match_exp s), snd (match_exp s) ++ rest).
Proof.
  intros Hstop. pose proof (number_stop_no_digit _ Hstop) as Hnd.
  destruct s as [|c s]; simpl.
  - apply number_stop_head in Hstop. destruct rest as [|d rest]; [reflexivity|].
    destruct Hstop as (_ & _ & _ & _ & He & HE). simpl. rewrite He, HE.
    reflexivity.
  - destruct (N.eqb c (chr "e") || N.eqb c (chr "E")); [|reflexivity].
    destruct s as [|d t]; simpl.
    + apply number_stop_head in Hstop.
      destruct rest as [|x rest]; [reflexivity|].
      destruct Hstop as (Hx & Hm & Hp & _). rewrite Hm, Hp. simpl.
      rewrite Hx. reflexivity.
    + destruct (N.eqb d (chr "-")).
      * rewrite (span_digits_app _ _ Hnd).
        destruct (span_digits t) as [[|x ds] r]; reflexivity.
      * destruct (N.eqb d (chr "+")).
        -- rewrite (span_digits_app _ _ Hnd).
           destruct (span_digits t) as [[|x ds] r]; reflexivity.
        -- change (d :: t ++ rest) with ((d :: t) ++ rest).
           rewrite (span_digits_app (d :: t) _ Hnd).
           destruct (span_digits (d :: t)) as [[|x ds] r]; reflexivity.
Qed.

(** A number is matched the same when it is followed by a text that starts
    with no character of a number. *)
Lemma match_number_app (t rest : pystr) :
  number_stop rest = true ->
  match_number (t ++ rest)
  = match match_number t with
    | Some (m, r) => Some (m, r ++ rest)
    | None => None
    end.
Proof.
  intros Hstop.
  assert (Hint : forall neg s,
    match match_integer (s ++ rest) with
    | None => None
    | Some (int, s2) =>
        let (frac, s3) := match_frac s2 in
        let (exp, s4) := match_exp s3 in
        Some ({| nm_negative := neg; nm_integer := int;
                 nm_frac := frac; nm_exp := exp |}, s4)
    end
    = match
        match match_integer s with
        | None => None
        | Some (int, s2) =>
            let (frac, s3) := match_frac s2 in
            let (exp, s4) := match_exp s3 in
            Some ({| nm_negative := neg; nm_integer := int;
                     nm_frac := frac; nm_exp := exp |}, s4)
        end
      with
      | Some (m, r) => Some (m, r ++ rest)
      | None => None
      end).
  { intros neg s. rewrite (match_integer_app _ _ Hstop).
    destruct (match_integer s) as [[int s2]|]; [|reflexivity].
    rewrite (match_frac_app _ _ Hstop).
    destruct (match_frac s2) as [frac s3]. simpl fst; simpl snd.
    rewrite (match_exp_app _ _ Hstop).
    destruct (match_exp s3) as [exp s4]. reflexivity. }
  unfold match_number. destruct t as [|c t].
  - simpl app. destruct rest as [|d rest]; [reflexivity|].
    pose proof (number_stop_head _ Hstop) as (_ & Hm & _). rewrite Hm.
    apply (Hint false []).
  - simpl app.
    match goal with
    | |- context [if ?k then (true, _) else _] => destruct k eqn:Ek
    end.
    + rewrite Ek. apply Hint.
    + rewrite Ek. apply (Hint false (c :: t)).
Qed.

(** A matched number starts with a minus sign or a digit. *)
Lemma match_number_head (s : pystr) (m : number_match) (r : pystr) :
  match_number s = Some (m, r) ->
  exists c s', s = c :: s' /\ (c = chr "-" \/ is_digit c = true).
Proof.
  unfold match_number. destruct s as [|c s'].
  - simpl. discriminate.
  - intros H. exists c, s'. split; [reflexivity|].
    destruct (N.eqb_spec c (chr "-")) as [->|Hne]; [left; reflexivity|].
    right. simpl in H. destruct (N.eqb c (chr "0")) eqn:E0.
    + apply N.eqb_eq in E0. subst. reflexivity.
    + destruct (is_digit c); [reflexivity | discriminate].
Qed.

Lemma strip_prefix_head_ne (a : N) (p : pystr) (c : N) (s : pystr) :
  N.eqb a c = false -> strip_prefix (a :: p) (c :: s) = None.
Proof. intros H. simpl. rewrite H. reflexivity. Qed.

Lemma strip_prefix_app (p rest : pystr) : strip_prefix p (p ++ rest) = Some rest.
Proof.
  induction p as [|a p IH]; simpl; [reflexivity|].
  rewrite N.eqb_refl. exact IH.
Qed.

(** The scanner reads a matched number as its value. *)
Lemma scan_once_number (fuel : nat) (s : pystr) (m : number_match) (r : pystr) :
  match_number s = Some (m, r) ->
  scan_once (S fuel) s = Ok (number_value m, r).
Proof.
  intros Hm. destruct (match_number_head _ _ _ Hm) as (c & s' & -> & Hc).
  assert (Hcases : c = chr "-" \/ (48 <= c /\ c <= 57)).
  { destruct Hc as [Hc|Hc]; [left; exact Hc|right].
    unfold is_digit in Hc. apply andb_true_iff in Hc as [Ha Hb].
    apply N.leb_le in Ha, Hb. split; assumption. }
  assert (Hne : forall k, k <> chr "-" -> (k < 48 \/ 57 < k) -> N.eqb c k = false
                          /\ N.eqb k c = false).
  { intros k Hk1 Hk2. split; apply N.eqb_neq; intros ->;
      destruct Hcases as [E|E]; [contradiction | lia | apply Hk1; exact E | lia]. }
  cbn [scan_once].
  destruct (Hne DQUOTE) as [-> _]; [discriminate | first [left; reflexivity | right; reflexivity] |].
  destruct (Hne (chr "{")) as [-> _]; [discriminate | first [left; reflexivity | right; reflexivity] |].
  destruct (Hne (chr "[")) as [-> _]; [discriminate | first [left; reflexivity | right; reflexivity] |].
  change (py "null") with (110 :: py "ull").
  change (py "true") with (116 :: py "rue").
  change (py "false") with (102 :: py "alse").
  rewrite !strip_prefix_head_ne
    by (apply Hne; [discriminate | right; reflexivity]).
  rewrite Hm. reflexivity.
Qed.

(** *** Integers *)

Lemma digits_of_acc (fuel : nat) (n : N) (acc : pystr) :
  digits_of fuel n acc = digits_of fuel n [] ++ acc.
Proof.
  revert n acc. induction fuel as [|fuel IH]; intros n acc; simpl.
  - reflexivity.
  - destruct (n <? 10); [reflexivity|].
    rewrite (IH _ ((48 + n mod 10) :: acc)), (IH _ [48 + n mod 10]).
    rewrite <- app_assoc. reflexivity.
Qed.

Lemma digits_value_app (ds : pystr) (d : N) :
  digits_value (ds ++ [d]) = digits_value ds * 10 + (d - 48).
Proof. unfold digits_value. rewrite fold_left_app. reflexivity. Qed.

Lemma log2_div10 (n : N) : 10 <= n -> N.log2 (n / 10) < N.log2 n.
Proof.
  intros H. assert (Hq : 0 < n / 10) by div_lia.
  assert (Hle : 2 * (n / 10) <= n) by div_lia.
  apply N.log2_le_mono in Hle. rewrite (N.log2_double _ Hq) in Hle. lia.
Qed.

(** The digits written for [n] are digits, denote [n], and start with a zero
    only when [n] is zero, which is written as one zero. *)
Lemma digits_of_spec (fuel : nat) (n : N) :
  (N.to_nat (N.log2 n) < fuel)%nat ->
  forallb is_digit (digits_of fuel n []) = true
  /\ digits_value (digits_of fuel n []) = n
  /\ exists d tl, digits_of fuel n [] = d :: tl
                  /\ is_digit d = true
                  /\ (N.eqb d (chr "0") = true -> tl = []).
Proof.
  revert n. induction fuel as [|fuel IH]; intros n Hfuel; [lia|].
  cbn [digits_of]. destruct (N.ltb_spec n 10) as [Hlt|Hge].
  - assert (Hd : is_digit (48 + n mod 10) = true).
    { unfold is_digit. apply andb_true_iff. split; apply N.leb_le; div_lia. }
    repeat split.
    + cbn [forallb]. rewrite Hd. reflexivity.
    + unfold digits_value. cbn [fold_left]. div_lia.
    + exists (48 + n mod 10), []. auto.
  - rewrite digits_of_acc.
    assert (Hlog := log2_div10 n Hge).
    destruct (IH (n / 10)) as (Hall & Hval & d & tl & Heq & Hd & Hz); [lia|].
    assert (Hlast : is_digit (48 + n mod 10) = true).
    { unfold is_digit. apply andb_true_iff. split; apply N.leb_le; div_lia. }
    repeat split.
    + rewrite forallb_app, Hall. cbn [forallb]. rewrite Hlast. reflexivity.
    + rewrite digits_value_app, Hval. div_lia.
    + exists d, (tl ++ [48 + n mod 10]). rewrite Heq. repeat split; auto.
      intros H0. specialize (Hz H0). subst tl. rewrite Heq in Hval.
      apply N.eqb_eq in H0. subst d. unfold digits_value in Hval.
      change (chr "0") with 48 in Hval. cbn [fold_left] in Hval.
      exfalso. div_lia.
Qed.

(** The text of an integer is matched as an integer with no fraction and no
    exponent, and read as that integer. *)
Lemma match_number_int_repr (z : Z) :
  exists m, match_number (int_repr z) = Some (m, [])
            /\ number_value m = JInt z.
Proof.
  unfold int_repr.
  set (n := Z.abs_N z).
  destruct (digits_of_spec (S (N.to_nat (N.log2 n))) n)
    as (Hall & Hval & d & tl & Heq & Hd & Hz); [lia|].
  set (ds := digits_of (S (N.to_nat (N.log2 n))) n []) in *.
  assert (Hint : match_integer ds = Some (ds, [])).
  { rewrite Heq. unfold match_integer.
    destruct (N.eqb d (chr "0")) eqn:E0.
    - rewrite (Hz eq_refl). reflexivity.
    - rewrite Hd. rewrite Heq in Hall. simpl in Hall.
      apply andb_true_iff in Hall as [_ Hall].
      rewrite (span_digits_all _ Hall). reflexivity. }
  assert (Hnm : N.eqb d (chr "-") = false).
  { apply N.eqb_neq. intros ->. discriminate. }
  destruct (Z.ltb_spec z 0) as [Hneg|Hpos].
  - exists {| nm_negative := true; nm_integer := ds;
              nm_frac := None; nm_exp := None |}.
    split.
    + unfold match_number. rewrite N.eqb_refl, Hint. reflexivity.
    + unfold number_value, py_int. simpl. rewrite Hval. f_equal.
      unfold n. lia.
  - exists {| nm_negative := false; nm_integer := ds;
              nm_frac := None; nm_exp := None |}.
    split.
    + unfold match_number. rewrite Heq, Hnm, <- Heq, Hint. reflexivity.
    + unfold number_value, py_int. simpl. rewrite Hval. f_equal.
      unfold n. lia.
Qed.

Lemma spec_float_eqb_eq (f g : spec_float) : spec_float_eqb f g = true -> f = g.
Proof.
  destruct f as [s|s| |s m e], g as [t|t| |t n x]; simpl; try discriminate;
    try reflexivity.
  - intros H. apply Bool.eqb_prop in H. subst. reflexivity.
  - intros H. apply Bool.eqb_prop in H. subst. reflexivity.
  - rewrite !andb_true_iff. intros [[Hs Hm] He].
    apply Bool.eqb_prop in Hs. apply Pos.eqb_eq in Hm. apply Z.eqb_eq in He.
    subst. reflexivity.
Qed.

(** The text of a float the encoder is right on is matched whole and read as
    that float. *)
Lemma match_number_float_repr float_repr (f : spec_float) :
  float_repr_ok float_repr f = true ->
  match f with
  | S754_nan | S754_infinity _ => True
  | _ => exists m, match_number (float_repr f) = Some (m, [])
                   /\ number_value m = JFloat f
  end.
Proof.
  assert (H : forall g,
    match match_number (float_repr g) with
    | Some (m, []) =>
        match nm_frac m, nm_exp m with
        | None, None => false
        | _, _ => spec_float_eqb (py_float m) g
        end
    | _ => false
    end = true ->
    exists m, match_number (float_repr g) = Some (m, [])
              /\ number_value m = JFloat g).
  { intros g. destruct (match_number (float_repr g)) as [[m [|c r]]|];
      try discriminate.
    intros Hm. exists m. split; [reflexivity|]. unfold number_value.
    destruct (nm_frac m), (nm_exp m); try discriminate;
      apply spec_float_eqb_eq in Hm; rewrite Hm; reflexivity. }
  destruct f; simpl; auto.
Qed.

(** ** Reading a value back *)

Lemma skip_ws_indentation (level : nat) (c : N) (s : pystr) :
  is_ws c = false -> skip_ws (indentation level ++ c :: s) = c :: s.
Proof.
  intros Hc. unfold indentation.
  induction (4 * level)%nat as [|n IH]; simpl.
  - rewrite Hc. reflexivity.
  - exact IH.
Qed.

Lemma skip_ws_newline_indent (level : nat) (c : N) (s : pystr) :
  is_ws c = false -> skip_ws (LF :: indentation level ++ c :: s) = c :: s.
Proof. intros Hc. simpl. apply skip_ws_indentation, Hc. Qed.

(** A repeated key aside, [dict] keeps the pairs as they come. *)
Lemma dict_set_absent (d : dict) (k : pystr) (v : json) :
  dict_mem d k = false -> dict_set d k v = d ++ [(k, v)].
Proof.
  unfold dict_mem. induction d as [|[k' v'] d IH]; simpl; [reflexivity|].
  destruct (pystr_eqb k' k); simpl; [discriminate|].
  intros H. rewrite (IH H). reflexivity.
Qed.

Lemma dict_mem_app (d1 d2 : dict) (k : pystr) :
  dict_mem (d1 ++ d2) k = dict_mem d1 k || dict_mem d2 k.
Proof. unfold dict_mem. apply existsb_app. Qed.

Lemma dict_of_pairs_unique_from (d1 d2 : dict) :
  keys_unique d2 = true ->
  (forall k, dict_mem d1 k = true -> dict_mem d2 k = false) ->
  fold_left (fun d kv => dict_set d (fst kv) (snd kv)) d2 d1 = d1 ++ d2.
Proof.
  revert d1. induction d2 as [|[k v] d2 IH]; intros d1 Hu Hdis; simpl.
  - rewrite app_nil_r. reflexivity.
  - simpl in Hu. apply andb_true_iff in Hu as [Hk Hu].
    apply negb_true_iff in Hk.
    assert (Hd1 : dict_mem d1 k = false).
    { destruct (dict_mem d1 k) eqn:E; [|reflexivity].
      specialize (Hdis k E). unfold dict_mem in Hdis. simpl in Hdis.
      rewrite pystr_eqb_refl in Hdis. discriminate. }
    rewrite (dict_set_absent _ _ _ Hd1), (IH _ Hu).
    + rewrite <- app_assoc. reflexivity.
    + intros k' Hk'. rewrite dict_mem_app in Hk'.
      apply orb_true_iff in Hk' as [Hk'|Hk'].
      * specialize (Hdis k' Hk'). unfold dict_mem in Hdis |- *.
        simpl in Hdis. apply orb_false_iff in Hdis as [_ Hdis]. exact Hdis.
      * unfold dict_mem in Hk'. simpl in Hk'. rewrite orb_false_r in Hk'.
        apply pystr_eqb_eq in Hk'. subst k'. exact Hk.
Qed.

Lemma dict_of_pairs_unique (d : dict) :
  keys_unique d = true -> dict_of_pairs d = d.
Proof.
  intros Hu. unfold dict_of_pairs.
  rewrite (dict_of_pairs_unique_from [] d Hu); [reflexivity|].
  intros k Hk. discriminate.
Qed.

Lemma str_join_cons2 (sep e e2 : pystr) (es : list pystr) :
  str_join sep (e :: e2 :: es) = e ++ sep ++ str_join sep (e2 :: es).
Proof. simpl. rewrite <- app_assoc. reflexivity. Qed.

Lemma str_join_single (sep e : pystr) : str_join sep [e] = e.
Proof. simpl. apply app_nil_r. Qed.

Lemma number_head_ok (c : N) :
  c = chr "-" \/ is_digit c = true ->
  is_ws c = false /\ N.eqb c (chr "]") = false /\ N.eqb c DQUOTE = false.
Proof.
  intros [->|Hd]; [repeat split; reflexivity|].
  unfold is_digit in Hd. apply andb_true_iff in Hd as [Ha Hb].
  apply N.leb_le in Ha, Hb. unfold is_ws.
  repeat split; rewrite ?orb_false_iff; repeat split; apply N.eqb_neq;
    intros ->; change (chr "]") with 93 in *; unfold LF, CR, DQUOTE in *;
    try discriminate; lia.
Qed.

Section RoundTrip.

Variable float_repr : spec_float -> pystr.

(** The text of a value starts with a character that is no white space and
    no closing bracket. *)
Lemma iterencode_head (v : json) (level : nat) :
  floats_ok float_repr v = true ->
  exists c t, iterencode float_repr v level = c :: t
              /\ is_ws c = false /\ N.eqb c (chr "]") = false.
Proof.
  intros Hf. destruct v as [ |[|]|n|f|s|[|x items]|[|kv members]];
    try (eexists; eexists; repeat split; reflexivity).
  - destruct (match_number_int_repr n) as (m & Hm & _).
    destruct (match_number_head _ _ _ Hm) as (c & t & Heq & Hc).
    exists c, t. simpl. rewrite Heq.
    destruct (number_head_ok c Hc) as (H1 & H2 & _). auto.
  - simpl in Hf. pose proof (match_number_float_repr float_repr f Hf) as H.
    destruct f as [sg|[|]| |sg mant e];
      try (eexists; eexists; repeat split; reflexivity);
      destruct H as (m & Hm & _);
      destruct (match_number_head _ _ _ Hm) as (c & t & Heq & Hc);
      exists c, t; simpl; rewrite Heq;
      destruct (number_head_ok c Hc) as (H1 & H2 & _); auto.
Qed.

(** The loop of [JSONArray] reads the elements back, one after the other. *)
Lemma JSONArray_loop_reads (level : nat) (rest : pystr) (vs : list json) :
  Forall (reads_back float_repr) vs ->
  forall (v : json) (values : list json) (fuel : nat),
    reads_back float_repr v ->
    forallb json_ok (v :: vs) = true ->
    forallb (floats_ok float_repr) (v :: vs) = true ->
    (list_sum (map (fun x => S (json_size x)) (v :: vs)) <= fuel)%nat ->
    JSONArray_loop fuel
      (str_join (COMMA :: LF :: indentation (S level))
                (map (fun x => iterencode float_repr x (S level)) (v :: vs))
       ++ LF :: indentation level ++ chr "]" :: rest)
      values
    = Ok (JArr (values ++ v :: vs), rest).
Proof.
  induction 1 as [|v2 vs Hv2 Hvs IH]; intros v values fuel Hv Hok Hfl Hfuel.
  - cbn [map] in *. rewrite str_join_single.
    cbn [forallb] in Hok, Hfl. cbn [list_sum fold_right] in Hfuel.
    rewrite andb_true_r in Hok, Hfl.
    destruct fuel as [|fuel]; [lia|]. cbn [JSONArray_loop].
    rewrite (Hv (S level) fuel _ Hok Hfl); [|reflexivity|lia].
    cbn [bind fst snd]. rewrite skip_ws_newline_indent by reflexivity.
    rewrite N.eqb_refl. reflexivity.
  - cbn [map] in *. rewrite str_join_cons2.
    cbn [forallb] in Hok, Hfl. apply andb_true_iff in Hok as [Hok Hoks].
    apply andb_true_iff in Hfl as [Hfl Hfls].
    cbn [list_sum fold_right] in Hfuel.
    change (fold_right Nat.add 0%nat ?l) with (list_sum l) in Hfuel.
    destruct fuel as [|fuel]; [lia|]. cbn [JSONArray_loop].
    rewrite <- !app_assoc.
    change ((COMMA :: LF :: indentation (S level)) ++ ?x)
      with (COMMA :: LF :: indentation (S level) ++ x).
    rewrite (Hv (S level) fuel _ Hok Hfl); [|reflexivity|lia].
    cbn [bind fst snd].
    cbn [app skip_ws]. change (is_ws COMMA) with false. cbv iota.
    change (N.eqb COMMA (chr "]")) with false.
    rewrite N.eqb_refl. cbv iota.
    assert (Hf2 : floats_ok float_repr v2 = true).
    { cbn [forallb] in Hfls. apply andb_true_iff in Hfls as [H _]. exact H. }
    destruct (iterencode_head v2 (S level) Hf2) as (c & t & Heq & Hws & _).
    rewrite str_join_cons2 || idtac.
    assert (Hskip : forall tail,
      skip_ws (LF :: indentation (S level)
               ++ str_join (COMMA :: LF :: indentation (S level))
                    (iterencode float_repr v2 (S level)
                     :: map (fun x => iterencode float_repr x (S level)) vs)
               ++ tail)
      = str_join (COMMA :: LF :: indentation (S level))
          (iterencode float_repr v2 (S level)
           :: map (fun x => iterencode float_repr x (S level)) vs)
        ++ tail).
    { intros tail. unfold str_join at 1 2. rewrite Heq.
      cbn [app]. apply skip_ws_newline_indent, Hws. }
    rewrite Hskip.
    rewrite (IH v2 (values ++ [v]) fuel Hv2 Hoks Hfls);
      [|unfold list_sum in *; cbn [fold_right] in *; lia].
    rewrite <- app_assoc. reflexivity.
Qed.

End RoundTrip.
